(** * ReactBubbleChartD3: a shallow embedding of the bubble-chart engine

    The development follows [src/ReactBubbleChartD3.js]: the quantized
    colour scales built in [update], the keyed data join that feeds the
    update / enter / exit selections, the transitions scheduled on each of
    them, and the tooltip placement of [adjustTooltipPosition].

    Conventions.
    - A JavaScript number is a rational ([Q]) and the arithmetic on it
      is exact, with one exception: the cut points of the colour scale
      are rounded as binary64 rounds them ([Double.round]), since the
      rounding decides which colour a value at a cut gets.  The [Math]
      routines used by the exit trajectory are parameters.
    - [undefined] is [None]; a value that may be a string or [undefined]
      is an [option string].
    - Strings assembled from numbers (['translate(' + x + ',' + y + ')'],
      [n + 'px']) are kept structured, see [value]. *)

From Stdlib Require Import QArith Qround Qminmax Qabs ZArith Lia Lqa Bool.
From Stdlib Require Import PrimFloat SpecFloat FloatOps.
From stdpp Require Import gmap strings list.

(** ** JavaScript values that reach the DOM *)

Inductive value : Type :=
| VNum (q : Q)                (* a bare number, e.g. [.attr('r', 0)] *)
| VPx (q : Q)                 (* [q + 'px'] *)
| VTranslate (tx ty : Q)      (* ['translate(' + tx + ',' + ty + ')'] *)
| VStr (s : string)
| VUndefined
| VNull.

Definition of_color (c : option string) : value :=
  match c with Some s => VStr s | None => VUndefined end.

(** Truthiness of a value that is a string or [undefined]. *)
Definition truthy (s : option string) : bool :=
  match s with
  | None => false
  | Some s => negb (String.eqb s "")
  end.

(** ** The rounding of binary64

    The result of an arithmetic operation on doubles is the double
    nearest to the exact result, the one with an even mantissa of two at
    the same distance.  Doubles have 53 bits of mantissa; below
    [2^-1022] they are spaced by [2^-1074].  Results beyond the largest
    double (about [1.8e308]) are not modelled. *)

Module Double.

Local Open Scope Q_scope.

(** [2^e] *)
Definition pow2 (e : Z) : Q :=
  if (0 <=? e)%Z then inject_Z (2 ^ e) else 1 # Z.to_pos (2 ^ (- e)).

(** The integer nearest to [q], the even one of two at the same
    distance. *)
Definition nearest_even (q : Q) : Z :=
  let f := Qfloor q in
  match Qcompare (q - inject_Z f) (1 # 2) with
  | Lt => f
  | Gt => (f + 1)%Z
  | Eq => if Z.even f then f else (f + 1)%Z
  end.

(** [floor (log2 a)] for a positive [a]. *)
Definition exponent (a : Q) : Z :=
  let e := (Z.log2 (Qnum a) - Z.log2 (Zpos (Qden a)))%Z in
  if Qle_bool (pow2 e) a then e else (e - 1)%Z.

(** The double nearest to [x]. *)
Definition round (x : Q) : Q :=
  if Qeq_bool x 0 then 0
  else
    let a := Qabs x in
    let e := Z.max (exponent a) (-1022) in
    let ulp := pow2 (e - 52) in
    let m := inject_Z (nearest_even (a / ulp)) * ulp in
    Qred (if Qle_bool 0 x then m else - m).

(** The value of a finite binary64 number of the kernel. *)
Definition of_float (f : float) : Q :=
  match Prim2SF f with
  | S754_finite sign m e =>
      let q := inject_Z (Zpos m) * pow2 e in
      Qred (if sign then - q else q)
  | _ => 0
  end.

End Double.

(** ** d3.scaleQuantize

    [update] builds [this.color] and [this.textColor] with
    [d3.scaleQuantize().domain([min, max]).range(palette)].  The scale is
    the one of d3-scale: [rescale] cuts the domain with [n = N - 1]
    thresholds and the scale looks a value up with a right bisection. *)

Module Quantize.

Local Open Scope Q_scope.

(** [bisectRight] of d3-array with the ascending comparator: the loop
    [while (lo < hi) { mid = lo + hi >>> 1;
       if (a[mid] > x) hi = mid; else lo = mid + 1; }].
    The loop runs at most [hi - lo] times, which is the fuel [bisect]
    gives it. *)
Fixpoint bisect_loop (fuel : nat) (a : list Q) (x : Q) (lo hi : nat) : nat :=
  match fuel with
  | O => lo
  | S fuel' =>
      if (lo <? hi)%nat then
        let mid := ((lo + hi) / 2)%nat in
        match a !! mid with
        | Some am =>
            if Qle_bool am x
            then bisect_loop fuel' a x (mid + 1)%nat hi
            else bisect_loop fuel' a x lo mid
        | None => bisect_loop fuel' a x (mid + 1)%nat hi
        end
      else lo
  end.

Definition bisect (a : list Q) (x : Q) (lo hi : nat) : nat :=
  bisect_loop (hi - lo) a x lo hi.

(** [domain[i] = ((i + 1) * x1 - (i - n) * x0) / (n + 1)]: the sums of
    integers are exact, the two products, the difference and the
    quotient are each rounded. *)
Definition threshold (x0 x1 : Q) (n i : nat) : Q :=
  Double.round
    (Double.round
       (Double.round (inject_Z (Z.of_nat i + 1) * x1)
        - Double.round (inject_Z (Z.of_nat i - Z.of_nat n) * x0))
     / inject_Z (Z.of_nat n + 1)).

Definition rescale (x0 x1 : Q) (n : nat) : list Q :=
  map (threshold x0 x1 n) (seq 0 n).

Record scale : Type := mkScale {
  x0 : Q;
  x1 : Q;
  n : nat;
  domain : list Q;
  range : list string
}.

(** [.domain([lo, hi]).range(palette)].  With an empty palette
    [n = range.length - 1] is [-1] and [new Array(n)] raises a
    [RangeError]: no scale is built ([None]). *)
Definition scaleQuantize (dom : Q * Q) (palette : list string) : option scale :=
  match palette with
  | [] => None
  | _ :: rest =>
      let n := length rest in
      Some (mkScale (fst dom) (snd dom) n (rescale (fst dom) (snd dom) n) palette)
  end.

(** The index the scale reads its range at. *)
Definition bucket (s : scale) (v : Q) : nat :=
  bisect (domain s) v 0 (n s).

(** [scale(x)]: [if (x <= x) return range[bisect(domain, x, 0, n)]];
    an [undefined] argument fails the test and yields [undefined]. *)
Definition apply (s : scale) (v : option Q) : option string :=
  match v with
  | None => None
  | Some q => range s !! bucket s q
  end.



End Quantize.

(** ** Data items and layout nodes *)

(** A data item as the chart reads it: [_id], [displayText],
    [colorValue], [selected].  The synthetic root made by
    [d3.hierarchy({children: data})] has no [_id]. *)
Record datum : Type := mkDatum {
  _id : option string;
  displayText : option string;
  colorValue : option Q;
  selected : bool
}.

(** One node of [this.bubble(nodes).descendants()]: its data item, the
    packed circle and whether it has children. *)
Module Node.
Record t : Type := mk {
  data : datum;
  x : Q;
  y : Q;
  r : Q;
  children : bool
}.
End Node.

(** ['' + v] for a value that is a string or [undefined]. *)
Definition to_string (s : option string) : string :=
  match s with Some s => s | None => "undefined" end.

(** The key function of both joins: [d => 'g' + d.data._id]. *)
Definition key (d : Node.t) : string :=
  "g" +:+ to_string (_id (Node.data d)).

(** ** The keyed data join

    [selection.data(values, key)] of d3-selection ([bindKey]).  [group] is
    the selected elements in document order, each given by the datum bound
    to it; an element is referred to by its index in [group].
    [nodeByKeyValue] maps a key to the element that owns it, or to [null]
    ([None]) once the element has been joined. *)

Module Join.

Record t : Type := mk {
  update : list (option (nat * Node.t));  (* element and its new datum *)
  enter : list (option Node.t);           (* placeholder with its datum *)
  exit : list (option (nat * Node.t))     (* element and its old datum *)
}.

(** First loop: key every element; an element whose key is already owned
    goes to [exit]. *)
Fixpoint key_nodes (i : nat) (group : list Node.t)
    (nodeByKeyValue : gmap string (option nat))
    : gmap string (option nat) * list (option (nat * Node.t)) :=
  match group with
  | [] => (nodeByKeyValue, [])
  | node :: rest =>
      match nodeByKeyValue !! key node with
      | Some _ =>
          let '(m, ex) := key_nodes (S i) rest nodeByKeyValue in
          (m, Some (i, node) :: ex)
      | None =>
          let '(m, ex) :=
            key_nodes (S i) rest (<[key node := Some i]> nodeByKeyValue) in
          (m, None :: ex)
      end
  end.

(** Second loop: a datum whose key is owned by an element joins it
    ([update[i] = node; nodeByKeyValue[keyValue] = null]); any other datum
    gets a placeholder in [enter]. *)
Fixpoint key_data (data : list Node.t)
    (nodeByKeyValue : gmap string (option nat))
    : gmap string (option nat)
      * list (option (nat * Node.t)) * list (option Node.t) :=
  match data with
  | [] => (nodeByKeyValue, [], [])
  | d :: rest =>
      match nodeByKeyValue !! key d with
      | Some (Some node) =>
          let '(m, up, en) :=
            key_data rest (<[key d := None]> nodeByKeyValue) in
          (m, Some (node, d) :: up, None :: en)
      | _ =>
          let '(m, up, en) := key_data rest nodeByKeyValue in
          (m, None :: up, Some d :: en)
      end
  end.

(** Third loop: an element that still owns its key was not joined and
    goes to [exit]. *)
Fixpoint unbound (i : nat) (group : list Node.t)
    (nodeByKeyValue : gmap string (option nat))
    (ex : list (option (nat * Node.t))) : list (option (nat * Node.t)) :=
  match group, ex with
  | node :: rest, e :: ex' =>
      (if decide (nodeByKeyValue !! key node = Some (Some i))
       then Some (i, node) else e)
      :: unbound (S i) rest nodeByKeyValue ex'
  | _, _ => []
  end.

Definition bindKey (group data : list Node.t) : t :=
  let '(m1, ex1) := key_nodes 0 group ∅ in
  let '(m2, up, en) := key_data data m1 in
  mk up en (unbound 0 group m2 ex1).

(** What the second loop does with a datum, read off the map the loop
    starts from, and what it leaves in the map for a key it has seen. *)
Definition joined (m : gmap string (option nat)) (d : Node.t)
    : option (nat * Node.t) :=
  match m !! key d with
  | Some (Some node) => Some (node, d)
  | _ => None
  end.

Definition placed (m : gmap string (option nat)) (d : Node.t)
    : option Node.t :=
  match m !! key d with
  | Some (Some _) => None
  | _ => Some d
  end.

Definition released (o : option (option nat)) : option (option nat) :=
  match o with
  | Some (Some _) => Some None
  | _ => o
  end.


(** [selection.data()]: the data of the elements of a selection. *)
Definition update_data (j : t) : list Node.t :=
  omap (fun o => snd <$> o) (update j).
Definition enter_data (j : t) : list Node.t :=
  omap (fun o => o) (enter j).

End Join.

(** ** Transitions *)

(** What a transition or a selection writes to: an attribute, a style
    property or the text content of the element. *)
Inductive prop : Type :=
| Attr (name : string)
| Style (name : string)
| Text.

(** A transition as [update] configures it: [.duration(..)],
    [.delay(..)] (a d3 transition that is given no delay starts at once,
    delay [0]), the end value of each property and whether [.remove()]
    discards the element when the transition ends. *)
Module Transition.
Record t : Type := mk {
  duration : Q;
  delay : Q;
  tweens : list (prop * value);
  remove : bool
}.
End Transition.

Inductive phase : Type := Updating | Entering | Exiting.

(** One element of the update, enter or exit selection of a cycle: its
    index in the selection and the datum the callbacks receive, what is
    written at once ([initial]) and the transition started on it. *)
Module Scheduled.
Record t : Type := mk {
  phase_of : phase;
  index : nat;
  datum_of : Node.t;
  initial : list (prop * value);
  transition : Transition.t
}.
End Scheduled.

(** The non-empty slots of a selection group with their indices. *)
Definition indexed {A : Type} (group : list (option A)) : list (nat * A) :=
  omap (fun o => o) (imap (fun i o => pair i <$> o) group).

(** [classnames]: [xs.filter(Boolean).join(' ')]; a slot that is [false]
    is [None]. *)
Fixpoint join_space (xs : list string) : string :=
  match xs with
  | [] => ""
  | [s] => s
  | s :: rest => s +:+ " " +:+ join_space rest
  end.

Definition classnames (xs : list (option string)) : string :=
  join_space (omap (fun o => if truthy o then o else None) xs).

(** ** Properties handed to the chart *)

Inductive legendEntry : Type :=
| LegendString (c : string)
| LegendObject (color : string) (textColor : option string).

Inductive dataId : Type :=
| IdUndefined
| IdNull
| Id (s : string).

Global Instance dataId_eq_dec : EqDecision dataId.
Proof. solve_decision. Defined.

Inductive tooltipMode : Type := ModeFunc | ModeComponent | ModeNone.

Module Props.
Record t : Type := mk {
  selectedColor : option string;
  selectedTextColor : option string;
  smallDiameter : option Q;
  mediumDiameter : option Q;
  fontSizeFactor : option Q;
  duration : option Q;
  delay : option Q;
  colorLegend : list legendEntry;
  (* [fixedDomain] as [(min, max)].  The chart is modelled with a fixed
     domain; without one the code takes the extent of the raw items with
     the accessor [d => d.data.colorValue]. *)
  domain : Q * Q;
  (* the data array, by reference; [None] when missing *)
  data : option nat;
  tooltippedDataId : dataId;
  tooltip : bool;
  mode : tooltipMode;
  tooltipProps : list string;
  tooltipMargin : Q
}.
End Props.

(** [v || dflt] for an optional number. *)
Definition or_default (v : option Q) (dflt : Q) : Q :=
  match v with
  | Some q => if Qeq_bool q 0 then dflt else q
  | None => dflt
  end.

(** [v === undefined ? dflt : v] *)
Definition if_undefined (v : option Q) (dflt : Q) : Q :=
  match v with Some q => q | None => dflt end.

(** ** The tooltip element and what the browser measures *)

Inductive side : Type := SideRight | SideLeft.

Module Tooltip.
Record t : Type := mk {
  display : string;
  classed : option side;
  width : option value;
  left : option value;
  top : option value;
  backgroundColor : option value;
  borderColor : option value
}.
End Tooltip.

Module Measures.
Record t : Type := mk {
  container_offsetWidth : Q;
  container_offsetHeight : Q;
  html_offsetLeft : Q;
  html_offsetTop : Q;
  tooltip_offsetWidth : Q;
  tooltip_offsetHeight : Q
}.
End Measures.

(** A call either returns or throws. *)
Inductive result (A : Type) : Type :=
| Ok (a : A)
| Throw (error : string).
Arguments Ok {A} a.
Arguments Throw {A} error.

Global Instance result_bind : MBind result := fun A B f m =>
  match m with
  | Ok a => f a
  | Throw e => Throw e
  end.

Global Instance result_ret : MRet result := fun A a => Ok a.

(** ** The chart *)

Module Chart.

Local Open Scope Q_scope.

(** The fields of [this] the engine reads and writes.
    [shouldCreateTooltip], [tooltipMode] and [tooltipMargin] are copies of
    the props' [tooltip], [tooltipMode] and [tooltipMargin] made at the
    start of every [update], where [this.props] is stored too: they are
    read from [props]. *)
Record t : Type := mk {
  (* constructor *)
  selectedColor : option string;
  selectedTextColor : option string;
  smallDiameter : Q;
  mediumDiameter : Q;
  fontSizeFactor : option Q;
  duration : Q;
  delay : Q;
  (* adjustSize *)
  diameter : Q;
  (* update; [None] is [undefined] *)
  props : Props.t;
  color : option Quantize.scale;
  textColor : option Quantize.scale;
  circles : option Join.t;
  labels : option Join.t;
  (* configureTooltip *)
  tooltipProps : option (list string);
  (* the tooltip element *)
  tooltip : Tooltip.t
}.

Definition set_tooltip (c : t) (tt : Tooltip.t) : t :=
  mk (selectedColor c) (selectedTextColor c) (smallDiameter c)
     (mediumDiameter c) (fontSizeFactor c) (duration c) (delay c)
     (diameter c) (props c) (color c) (textColor c) (circles c) (labels c)
     (tooltipProps c) tt.

Definition set_diameter (c : t) (d : Q) : t :=
  mk (selectedColor c) (selectedTextColor c) (smallDiameter c)
     (mediumDiameter c) (fontSizeFactor c) (duration c) (delay c)
     d (props c) (color c) (textColor c) (circles c) (labels c)
     (tooltipProps c) (tooltip c).

Definition set_props (c : t) (p : Props.t) : t :=
  mk (selectedColor c) (selectedTextColor c) (smallDiameter c)
     (mediumDiameter c) (fontSizeFactor c) (duration c) (delay c)
     (diameter c) p (color c) (textColor c) (circles c) (labels c)
     (tooltipProps c) (tooltip c).

Definition set_tooltipProps (c : t) (tp : option (list string)) : t :=
  mk (selectedColor c) (selectedTextColor c) (smallDiameter c)
     (mediumDiameter c) (fontSizeFactor c) (duration c) (delay c)
     (diameter c) (props c) (color c) (textColor c) (circles c) (labels c)
     tp (tooltip c).

Definition set_scales (c : t) (fill text : Quantize.scale) : t :=
  mk (selectedColor c) (selectedTextColor c) (smallDiameter c)
     (mediumDiameter c) (fontSizeFactor c) (duration c) (delay c)
     (diameter c) (props c) (Some fill) (Some text) (circles c) (labels c)
     (tooltipProps c) (tooltip c).

Definition set_selections (c : t) (cs ls : Join.t) : t :=
  mk (selectedColor c) (selectedTextColor c) (smallDiameter c)
     (mediumDiameter c) (fontSizeFactor c) (duration c) (delay c)
     (diameter c) (props c) (color c) (textColor c) (Some cs) (Some ls)
     (tooltipProps c) (tooltip c).

(** The tooltip element as the constructor leaves it. *)
Definition tooltip0 : Tooltip.t :=
  Tooltip.mk "none" None None None None None None.

(** The assignments of the constructor (lines 45-52), before it calls
    [adjustSize] and [update]. *)
Definition construct (p : Props.t) : t :=
  mk (Props.selectedColor p) (Props.selectedTextColor p)
     (or_default (Props.smallDiameter p) 40)
     (or_default (Props.mediumDiameter p) 115)
     (Props.fontSizeFactor p)
     (if_undefined (Props.duration p) 500)
     (if_undefined (Props.delay p) 7)
     0 p None None None None None tooltip0.

(** [this.color(v)]: calling a field that is still [undefined] throws. *)
Definition call (f : option Quantize.scale) (v : option Q)
    : result (option string) :=
  match f with
  | Some s => Ok (Quantize.apply s v)
  | None => Throw "TypeError"
  end.

Definition getCircleColor (c : t) (d : Node.t) : result (option string) :=
  if selected (Node.data d) && truthy (selectedColor c)
  then Ok (selectedColor c)
  else call (color c) (colorValue (Node.data d)).

Definition getLabelColor (c : t) (d : Node.t) : result (option string) :=
  if selected (Node.data d) && truthy (selectedTextColor c)
  then Ok (selectedTextColor c)
  else call (textColor c) (colorValue (Node.data d)).

(** [a < b] on numbers. *)
Definition ltb (a b : Q) : bool := negb (Qle_bool b a).

Definition getLabelClass (c : t) (d : Node.t) : string :=
  let size :=
    if ltb (2 * Node.r d) (smallDiameter c) then "small"
    else if ltb (2 * Node.r d) (mediumDiameter c) then "medium"
    else "large" in
  classnames [Some "bubble-label"; Some size;
              if selected (Node.data d) then Some "selected" else None].

(** The fill of the legacy variant of the engine (its [update], the
    [.style('fill', ..)] of lines 789 and 826):
    [d.data.selected ? this.selectedColor : color(d.data.colorValue)]
    with [color] the scale built by that [update]. *)
Definition legacy_fill (selectedColor : option string)
    (color : Quantize.scale) (d : Node.t) : option string :=
  if selected (Node.data d) then selectedColor
  else Quantize.apply color (colorValue (Node.data d)).

(** [fontFactor ? fontFactor * d.r + 'px' : null] *)
Definition fontSize (c : t) (d : Node.t) : value :=
  match fontSizeFactor c with
  | Some f => if Qeq_bool f 0 then VNull else VPx (f * Node.r d)
  | None => VNull
  end.

(** Two states of the chart that differ at most in the tooltip element. *)
Definition same_chart (c c' : t) : Prop := c' = set_tooltip c (tooltip c').

Section Engine.

(** [Math.atan2], [Math.cos] and [Math.sin]. *)
Variable Math_atan2 : Q -> Q -> Q.
Variable Math_cos : Q -> Q.
Variable Math_sin : Q -> Q.

(** What the browser reports for the container, the [html] layer and the
    tooltip, given the tooltip's styles. *)
Variable measure : Tooltip.t -> Measures.t.

(** [d3.rgb] mixing of [_showTooltip]: the fill faded with 80% white. *)
Variable fade : option string -> string.

(** [this.tooltipFunc(tooltipNode, d, fill) === false] *)
Variable tooltipFunc_false : Node.t -> option string -> bool.

Definition adjustSize (c : t) : t :=
  let m := measure (tooltip c) in
  set_diameter c
    (Qmin (Measures.container_offsetWidth m)
          (Measures.container_offsetHeight m)).

(** The destination of an exiting element (lines 357-363, 371-384). *)
Definition destX (c : t) (d : Node.t) : Q :=
  let dy := Node.y d - diameter c / 2 in
  let dx := Node.x d - diameter c / 2 in
  let theta := Math_atan2 dy dx in
  diameter c * (1 + Math_cos theta) / 2.

Definition destY (c : t) (d : Node.t) : Q :=
  let dy := Node.y d - diameter c / 2 in
  let dx := Node.x d - diameter c / 2 in
  let theta := Math_atan2 dy dx in
  diameter c * (1 + Math_sin theta) / 2.

(** *** The selections of one cycle *)

(** [this.circles.transition()...] (lines 286-293) *)
Definition circle_update (c : t) (e : nat * (nat * Node.t))
    : result Scheduled.t :=
  let '(i, (_, d)) := e in
  fill ← getCircleColor c d;
  mret (Scheduled.mk Updating i d []
    (Transition.mk (duration c) (inject_Z (Z.of_nat i) * delay c)
       [(Attr "transform", VTranslate (Node.x d) (Node.y d));
        (Attr "r", VNum (Node.r d));
        (Style "opacity", VNum 1);
        (Style "fill", of_color fill)]
       false)).

(** [this.labels...transition()...] (lines 295-308) *)
Definition label_update (c : t) (e : nat * (nat * Node.t))
    : result Scheduled.t :=
  let '(i, (_, d)) := e in
  col ← getLabelColor c d;
  mret (Scheduled.mk Updating i d []
    (Transition.mk (duration c) (inject_Z (Z.of_nat i) * delay c)
       [(Style "height", VPx (2 * Node.r d));
        (Style "width", VPx (2 * Node.r d));
        (Style "left", VPx (Node.x d - Node.r d));
        (Style "top", VPx (Node.y d - Node.r d));
        (Style "opacity", VNum 1);
        (Style "color", of_color col);
        (Attr "class", VStr (getLabelClass c d));
        (Style "font-size", fontSize c d)]
       false)).

(** [this.circles.enter().filter(d => !d.children).append('circle')...]
    (lines 313-328); [index] is the slot of the placeholder. *)
Definition circle_enter (c : t) (e : nat * Node.t) : result Scheduled.t :=
  let '(i, d) := e in
  fill ← getCircleColor c d;
  mret (Scheduled.mk Entering i d
    [(Attr "transform", VTranslate (Node.x d) (Node.y d));
     (Attr "r", VNum 0);
     (Attr "class",
      VStr (classnames [Some "bubble";
                        if Node.children d then None else Some "leaf";
                        if selected (Node.data d)
                        then Some "selected" else None]));
     (Style "fill", of_color fill)]
    (Transition.mk (duration c * 1.2) 0
       [(Attr "transform", VTranslate (Node.x d) (Node.y d));
        (Attr "r", VNum (Node.r d));
        (Style "opacity", VNum 1)]
       false)).

(** [this.labels.enter().append('div')...] (lines 330-349) *)
Definition label_enter (c : t) (e : nat * Node.t) : result Scheduled.t :=
  let '(i, d) := e in
  col ← getLabelColor c d;
  mret (Scheduled.mk Entering i d
    [(Attr "class", VStr (getLabelClass c d));
     (Text, match (if truthy (displayText (Node.data d))
                   then displayText (Node.data d)
                   else _id (Node.data d)) with
            | Some s => VStr s
            | None => VStr ""
            end);
     (Style "position", VStr "absolute");
     (Style "height", VPx (2 * Node.r d));
     (Style "width", VPx (2 * Node.r d));
     (Style "left", VPx (Node.x d - Node.r d));
     (Style "top", VPx (Node.y d - Node.r d));
     (Style "color", of_color col);
     (Style "opacity", VNum 0)]
    (Transition.mk (duration c * 1.2) 0
       [(Style "opacity", VNum 1);
        (Style "font-size", fontSize c d)]
       false)).

(** [this.circles.exit().transition()...remove()] (lines 354-366) *)
Definition circle_exit (c : t) (e : nat * (nat * Node.t)) : Scheduled.t :=
  let '(i, (_, d)) := e in
  Scheduled.mk Exiting i d []
    (Transition.mk (duration c) 0
       [(Attr "transform", VTranslate (destX c d) (destY c d));
        (Attr "r", VNum 0)]
       true).

(** [this.labels.exit().transition()...remove()] (lines 368-388) *)
Definition label_exit (c : t) (e : nat * (nat * Node.t)) : Scheduled.t :=
  let '(i, (_, d)) := e in
  Scheduled.mk Exiting i d []
    (Transition.mk (duration c) 0
       [(Style "top", VPx (destY c d));
        (Style "left", VPx (destX c d));
        (Style "opacity", VNum 0);
        (Style "width", VNum 0);
        (Style "height", VNum 0)]
       true).

(** *** The tooltip *)

(** The identity a truthy [tooltippedDataId] names. *)
Definition truthy_id (i : dataId) : option string :=
  match i with
  | Id s => if String.eqb s "" then None else Some s
  | _ => None
  end.

(** [this.circles.data().concat(this.circles.enter().data())
      .find(d => d.data._id === id)] *)
Definition findNodeByDataId (c : t) (id : string) : result (option Node.t) :=
  match circles c with
  | None => Throw "TypeError"
  | Some j =>
      Ok (List.find (fun d => bool_decide (_id (Node.data d) = Some id))
                    (Join.update_data j ++ Join.enter_data j))
  end.

(** [a > b] on numbers. *)
Definition gtb (a b : Q) : bool := negb (Qle_bool a b).

(** Lines 499-512: the [top] of the tooltip. *)
Definition place_top (m : Measures.t) (margin : Q) (d : Node.t) : Q :=
  let height := Measures.tooltip_offsetHeight m in
  let origin_y := Measures.html_offsetTop m in
  if ltb (origin_y + Node.y d - height) 0 then
    margin
  else if gtb (origin_y + Node.y d + height / 2)
              (Measures.container_offsetHeight m) then
    Measures.container_offsetHeight m - height - margin
  else
    Node.y d - height / 2.

(** Lines 514-530: the [left] of the tooltip and its [side]. *)
Definition place_left (m : Measures.t) (margin : Q) (d : Node.t) : Q * side :=
  let width := Measures.tooltip_offsetWidth m + 1 in
  let origin_x := Measures.html_offsetLeft m in
  if ltb (origin_x + Node.x d + Node.r d + width + margin)
         (Measures.container_offsetWidth m) then
    (Node.x d + Node.r d + margin, SideRight)
  else if gtb (origin_x + Node.x d - Node.r d - width - margin) 0 then
    (Node.x d - Node.r d - width - margin, SideLeft)
  else
    (Measures.container_offsetWidth m - width - margin, SideRight).

Definition adjustTooltipPosition (c : t) : result t :=
  match truthy_id (Props.tooltippedDataId (props c)) with
  | None => Ok c
  | Some id =>
      found ← findNodeByDataId c id;
      match found with
      | None => Ok c
      | Some d =>
          let m := measure (tooltip c) in
          let width := Measures.tooltip_offsetWidth m + 1 in
          let margin := Props.tooltipMargin (props c) in
          let top := place_top m margin d in
          let placed := place_left m margin d in
          Ok (set_tooltip c
                (Tooltip.mk (Tooltip.display (tooltip c)) (Some (snd placed))
                   (Some (VPx width)) (Some (VPx (fst placed)))
                   (Some (VPx top))
                   (Tooltip.backgroundColor (tooltip c))
                   (Tooltip.borderColor (tooltip c))))
      end
  end.

Definition _hideTooltip (c : t) : t :=
  set_tooltip c
    (Tooltip.mk "none" (Tooltip.classed (tooltip c)) None None None
       (Tooltip.backgroundColor (tooltip c))
       (Tooltip.borderColor (tooltip c))).

(** Lines 449-479.  The text written into the tooltip is not kept; the
    loop over [this.tooltipProps] throws when that field was never
    assigned. *)
Definition _showTooltip (c : t) (d : Node.t) : result t :=
  fill ← call (color c) (colorValue (Node.data d));
  let backgroundColor := fade fill in
  if match Props.mode (props c) with
     | ModeFunc => tooltipFunc_false d fill
     | _ => false
     end
  then Ok c
  else
    _ ← match Props.mode (props c), tooltipProps c with
        | ModeComponent, _ => Ok ()
        | _, Some _ => Ok ()
        | _, None => Throw "TypeError"
        end;
    adjustTooltipPosition
      (set_tooltip c
         (Tooltip.mk "block" (Tooltip.classed (tooltip c))
            (Tooltip.width (tooltip c)) (Tooltip.left (tooltip c))
            (Tooltip.top (tooltip c))
            (Some (VStr backgroundColor)) (Some (of_color fill)))).

Definition _updateTooltip (c : t) (tooltippedDataId prevTooltippedDataId : dataId)
    (data prevData : option nat) : result t :=
  if bool_decide (tooltippedDataId = prevTooltippedDataId)
     && bool_decide (data = prevData)
  then Ok c
  else
    tooltippedNode ← match truthy_id tooltippedDataId with
                     | Some id => findNodeByDataId c id
                     | None => Ok None
                     end;
    let c := _hideTooltip c in
    match tooltippedNode with
    | Some d => _showTooltip c d
    | None => Ok c
    end.

(** The part of [configureTooltip] that outlives the call. *)
Definition configureTooltip (c : t) (p : Props.t) : t :=
  if Props.tooltip p then
    match Props.mode p with
    | ModeFunc => set_tooltipProps c (Some (Props.tooltipProps p))
    | _ => c
    end
  else c.

(** *** update *)

(** The transitions one cycle schedules on the circles and on the
    labels, each in the order update, enter, exit. *)
Record plan : Type := mkPlan {
  circle_ops : list Scheduled.t;
  label_ops : list Scheduled.t
}.

Definition colorRange (p : Props.t) : list string :=
  map (fun e => match e with
                | LegendString s => s
                | LegendObject col _ => col
                end) (Props.colorLegend p).

Definition textColorRange (p : Props.t) : list string :=
  map (fun e => match e with
                | LegendString _ => "#000000"
                | LegendObject _ tc =>
                    if truthy tc then to_string tc else "#000000"
                end) (Props.colorLegend p).

(** [update(props, prevProps)].  [nodes] is
    [this.bubble(nodes).descendants()] for the data of [props];
    [circleElements] and [labelElements] are the data bound to the
    elements [selectAll('circle')] and [selectAll('.bubble-label')] find,
    in document order.  Without data the call returns before anything is
    scheduled.  A call that throws is its exception alone: what the code
    had scheduled before the throw is not kept. *)
Definition update (c : t) (p prevProps : Props.t) (nodes : list Node.t)
    (circleElements labelElements : list Node.t) : result (t * option plan) :=
  let c := set_props c p in
  let c := adjustSize c in
  let c := configureTooltip c p in
  match Props.data p with
  | None => Ok (c, None)
  | Some _ =>
      match Quantize.scaleQuantize (Props.domain p) (colorRange p),
            Quantize.scaleQuantize (Props.domain p) (textColorRange p) with
      | Some fill, Some text =>
          let c := set_scales c fill text in
          let cj := Join.bindKey circleElements nodes in
          let lj := Join.bindKey labelElements nodes in
          let c := set_selections c cj lj in
          cu ← mapM (circle_update c) (indexed (Join.update cj));
          lu ← mapM (label_update c) (indexed (Join.update lj));
          ce ← (if (0 <? length nodes)%nat
                then mapM (circle_enter c)
                       (List.filter (fun e => negb (Node.children (snd e)))
                                    (indexed (Join.enter cj)))
                else Ok []);
          le ← (if (0 <? length nodes)%nat
                then mapM (label_enter c) (indexed (Join.enter lj))
                else Ok []);
          let cx := map (circle_exit c) (indexed (Join.exit cj)) in
          let lx := map (label_exit c) (indexed (Join.exit lj)) in
          c ← _updateTooltip c (Props.tooltippedDataId p)
                (Props.tooltippedDataId prevProps)
                (Props.data p) (Props.data prevProps);
          c ← adjustTooltipPosition c;
          Ok (c, Some (mkPlan (cu ++ ce ++ cx) (lu ++ le ++ lx)))
      | _, _ => Throw "RangeError"
      end
  end.

(** [this] once [update] has stored the scales and the two joins: the
    state the callbacks of the cycle read. *)
Definition cycle_chart (c : t) (p : Props.t) (fill text : Quantize.scale)
    (nodes circleElements labelElements : list Node.t) : t :=
  set_selections
    (set_scales (configureTooltip (adjustSize (set_props c p)) p) fill text)
    (Join.bindKey circleElements nodes) (Join.bindKey labelElements nodes).

(** Where an entry of the plan comes from: an element joined to the node
    at its index, a placeholder for the node at its index, or an element
    left without a node. *)
Definition scheduled_circle (c1 : t) (nodes circleElements : list Node.t)
    (s : Scheduled.t) : Prop :=
  (exists i j d, nodes !! i = Some d /\ circle_update c1 (i, (j, d)) = Ok s) \/
  (exists i d, nodes !! i = Some d /\ Node.children d = false /\
               circle_enter c1 (i, d) = Ok s) \/
  (exists i j d, circleElements !! i = Some d /\
                 s = circle_exit c1 (i, (j, d))).

Definition scheduled_label (c1 : t) (nodes labelElements : list Node.t)
    (s : Scheduled.t) : Prop :=
  (exists i j d, nodes !! i = Some d /\ label_update c1 (i, (j, d)) = Ok s) \/
  (exists i d, nodes !! i = Some d /\ label_enter c1 (i, d) = Ok s) \/
  (exists i j d, labelElements !! i = Some d /\
                 s = label_exit c1 (i, (j, d))).

End Engine.

(** The placement rules in the words of the specification.  Horizontal:
    right of the node when that fits within the container width, else
    left of it when that stays at or above 0, else against the right
    edge.  Vertical: centred on the node unless the centred top is above
    0 or the centred bottom is beyond the container height. *)
Definition spec_place_left (containerWidth width margin : Q) (d : Node.t)
    : Q * side :=
  if ltb (Node.x d + Node.r d + width + margin) containerWidth then
    (Node.x d + Node.r d + margin, SideRight)
  else if Qle_bool 0 (Node.x d - Node.r d - width - margin) then
    (Node.x d - Node.r d - width - margin, SideLeft)
  else
    (containerWidth - width - margin, SideRight).

Definition spec_place_top (containerHeight height margin : Q) (d : Node.t)
    : Q :=
  if ltb (Node.y d - height / 2) 0 then margin
  else if gtb (Node.y d + height / 2) containerHeight then
    containerHeight - height - margin
  else Node.y d - height / 2.

End Chart.

(** ** Concrete charts used by the examples *)

Module Scenario.

Definition leaf (id : string) (x y r : Q) : Node.t :=
  Node.mk (mkDatum (Some id) None (Some 0%Q) false) x y r false.

Definition chosen (id : string) (x y r : Q) : Node.t :=
  Node.mk (mkDatum (Some id) None (Some 0%Q) true) x y r false.

(** The root [d3.hierarchy({children: data})] adds. *)
Definition root : Node.t :=
  Node.mk (mkDatum None None None false) 100 100 100 true.

Definition palette : list legendEntry :=
  [LegendString "#fee"; LegendString "#e33"].

(** Default timing, no selection colours, no tooltip target. *)
Definition props0 : Props.t :=
  Props.mk None None None None None None None palette (0, 1)%Q
    (Some 1%nat) IdUndefined false ModeNone [] 5.

(** As [props0] with [fontSizeFactor: 0.5]. *)
Definition props_font : Props.t :=
  Props.mk None None None None (Some 0.5%Q) None None palette (0, 1)%Q
    (Some 1%nat) IdUndefined false ModeNone [] 5.

(** As [props0] with the tooltip on a given identity. *)
Definition props_tip (id : string) : Props.t :=
  Props.mk None None None None None None None palette (0, 1)%Q
    (Some 1%nat) (Id id) true ModeComponent [] 5.

(** The [prevProps = {}] of the constructor. *)
Definition no_props : Props.t :=
  Props.mk None None None None None None None [] (0, 0)%Q None
    IdUndefined false ModeNone [] 0.

(** A container [w] by [h] with the [html] layer at its origin and a
    tooltip measuring [tw] by [th]. *)
Definition box (w h tw th : Q) (tt : Tooltip.t) : Measures.t :=
  Measures.mk w h 0 0 tw th.

Definition zero1 (a : Q) : Q := 0.
Definition zero2 (a b : Q) : Q := 0.
Definition fade0 (c : option string) : string := "#fff".
Definition func0 (d : Node.t) (c : option string) : bool := false.

Definition update0 :=
  Chart.update zero2 zero1 zero1 (box 500 500 100 40) fade0 func0.

Definition scale0 : Quantize.scale :=
  Quantize.mkScale 0 1 1 (Quantize.rescale 0 1 1) ["#fee"; "#e33"].

(** A chart that has rendered [nodes] and holds [p]. *)
Definition rendered (p : Props.t) (nodes : list Node.t) : Chart.t :=
  Chart.set_selections
    (Chart.set_scales (Chart.construct p) scale0 scale0)
    (Join.bindKey [] nodes) (Join.bindKey [] nodes).

(** What a call of [update] leaves: the chart and the plan, when it
    returns one. *)
Definition outcome (res : result (Chart.t * option Chart.plan))
    : Chart.t * Chart.plan :=
  match res with
  | Ok (c, Some pl) => (c, pl)
  | _ => (Chart.construct no_props, Chart.mkPlan [] [])
  end.

(** A first render: the root and the leaf [a]. *)
Definition first_nodes : list Node.t := [root; leaf "a" 50 50 20].

Definition first_render : Chart.t * Chart.plan :=
  Eval vm_compute in
    outcome (update0 (Chart.construct props0) props0 no_props
                     first_nodes [] []).

Definition first_render_font : Chart.t * Chart.plan :=
  Eval vm_compute in
    outcome (update0 (Chart.construct props_font) props_font no_props
                     first_nodes [] []).

(** A later render: [a] and [b] are on screen, [b] and [c] arrive. *)
Definition next_nodes : list Node.t :=
  [root; leaf "b" 60 60 20; leaf "c" 140 140 20].
Definition circles_before : list Node.t :=
  [leaf "a" 50 50 20; leaf "b" 150 150 20].
Definition labels_before : list Node.t :=
  [root; leaf "a" 50 50 20; leaf "b" 150 150 20].

Definition next_render : Chart.t * Chart.plan :=
  Eval vm_compute in
    outcome (update0 (Chart.construct props0) props0 no_props
                     next_nodes circles_before labels_before).

End Scenario.

(** ** The canvas *)

(** The [top] of [adjustSize] (line 93), which centres the canvas in the
    container: [Math.max((offsetHeight - diameter) / 2, 0)]. *)
Definition adjustSize_top (m : Measures.t) (diameter : Q) : Q :=
  Qmax ((Measures.container_offsetHeight m - diameter) / 2) 0.

(** ** The legend *)

Module Legend.

Local Open Scope Q_scope.

(** [c.color] *)
Definition color_of (e : legendEntry) : string :=
  match e with
  | LegendString s => s
  | LegendObject c _ => c
  end.

(** [this.colorLegend] (lines 238-240): the legend reversed, a string
    [c] standing for [{color: c}]. *)
Definition colorLegend (p : Props.t) : list legendEntry :=
  map (fun c => match c with
                | LegendString s => LegendObject s None
                | LegendObject _ _ => c
                end)
      (reverse (Props.colorLegend p)).

(** One [g.legend-key]: its [transform] and the [rect] in it.  The text
    beside the rect is not kept. *)
Record legendKey : Type := mkKey {
  transform : value;
  rect_width : Q;
  rect_height : Q;
  fill : string;
  stroke : string
}.

Record t : Type := mk {
  height : Q;
  width : Q;
  top : Q;
  left : Q;
  keys : list legendKey
}.

(** What [configureLegend] leaves: no legend, a legend of no entry (whose
    sizes, quotients by [colorLegend.length = 0], are no finite numbers),
    or the legend drawn. *)
Inductive legend : Type :=
| NoLegend
| Empty
| Drawn (l : t).

(** Lines 121-124. *)
Definition legendRectSize (offsetHeight legendSpacing : Q) (n : nat) : Q :=
  Qmin (((offsetHeight - 20)
         - (inject_Z (Z.of_nat n) - 1) * legendSpacing)
        / inject_Z (Z.of_nat n))
       18.

(** Line 125. *)
Definition legendHeight (legendRectSize legendSpacing : Q) (n : nat) : Q :=
  inject_Z (Z.of_nat n) * (legendRectSize + legendSpacing) - legendSpacing.

(** [configureLegend] (lines 112-154), with [props.legend],
    [this.legendSpacing], the container's [offsetHeight] and
    [this.colorLegend]. *)
Definition configureLegend (createLegend : bool)
    (legendSpacing offsetHeight : Q) (colorLegend : list legendEntry)
    : legend :=
  if negb createLegend then NoLegend
  else
    match colorLegend with
    | [] => Empty
    | _ :: _ =>
        let n := length colorLegend in
        let size := legendRectSize offsetHeight legendSpacing n in
        let h := legendHeight size legendSpacing n in
        Drawn (mk h size ((offsetHeight - h) / 2) 60
                 (imap (fun i c =>
                          mkKey (VTranslate 0 (inject_Z (Z.of_nat i)
                                               * (size + legendSpacing)))
                                size size (color_of c) (color_of c))
                       colorLegend))
    end.

End Legend.

(** ** Hovering *)

(** [_tooltipMouseOver] and [_tooltipMouseOut] (lines 404-429): the call
    of [this.onTooltip] they make, if any.  [shouldCreateTooltip] is the
    [tooltip] of the props, [tooltipShouldShow] their predicate. *)
Definition _tooltipMouseOver (p : Props.t) (tooltipShouldShow : Node.t -> bool)
    (d : Node.t) : option (bool * Node.t) :=
  if negb (Props.tooltip p) then None
  else if negb (tooltipShouldShow d) then None
  else Some (true, d).

Definition _tooltipMouseOut (p : Props.t) (tooltipShouldShow : Node.t -> bool)
    (d : Node.t) : option (bool * Node.t) :=
  if negb (Props.tooltip p) then None
  else if negb (tooltipShouldShow d) then None
  else Some (false, d).

(** ** The legacy variant *)

Module Legacy.

Local Open Scope Q_scope.

(** The [color] style of a label (lines 801 and 858):
    [d.data.selected ? this.selectedTextColor
                     : textColor(d.data.colorValue)]. *)
Definition label_color (selectedTextColor : option string)
    (textColor : Quantize.scale) (d : Node.t) : option string :=
  if selected (Node.data d) then selectedTextColor
  else Quantize.apply textColor (colorValue (Node.data d)).

(** The [class] of a label (lines 802-813 and 834-845). *)
Definition label_class (smallDiameter mediumDiameter : Q) (d : Node.t)
    : string :=
  let size :=
    if Chart.ltb (2 * Node.r d) smallDiameter then "small"
    else if Chart.ltb (2 * Node.r d) mediumDiameter then "medium"
    else "large" in
  "bubble-label " +:+ size.

(** The placement of [_tooltipMouseOver] (lines 932-965): [buffer] is 5
    and the node's coordinates are compared with the sizes of [el]
    as they are. *)
Definition mouseover_top (el_offsetHeight height : Q) (d : Node.t) : Q :=
  let buffer := 5 in
  if Chart.ltb (Node.y d - height) 0 then
    buffer
  else if Chart.gtb (Node.y d + height / 2) el_offsetHeight then
    el_offsetHeight - height - buffer
  else
    Node.y d - height / 2.

Definition mouseover_left (el_offsetWidth tooltip_offsetWidth : Q) (d : Node.t)
    : Q :=
  let width := tooltip_offsetWidth + 1 in
  let buffer := 5 in
  if Chart.ltb (Node.x d + Node.r d + width + buffer) el_offsetWidth then
    Node.x d + Node.r d + buffer
  else if Chart.gtb (Node.x d - Node.r d - width - buffer) 0 then
    Node.x d - Node.r d - width - buffer
  else
    el_offsetWidth - width - buffer.

End Legacy.

(** ** The host component *)

(** The part of [ReactBubbleChart] that decides which node the tooltip is
    on: [getDerivedStateFromProps] (lines 1125-1166) and [_handleTooltip]
    (lines 1261-1266). *)
Module Component.

Record props : Type := mkProps {
  data : option nat;                    (* the data array, by reference *)
  initialTooltippedDataId : dataId;
  tooltipFunc : bool;                   (* is one given *)
  tooltipComponent : bool               (* is one given *)
}.

(** The fields of [chartState] that depend on the state. *)
Record chartState : Type := mkChartState {
  cs_data : option nat;
  cs_tooltipMode : tooltipMode;
  cs_tooltippedDataId : dataId
}.

Record state : Type := mkState {
  tooltippedDataId : dataId;
  tooltipTargetChangedSinceLastDataUpdate : bool;
  prevData : option nat;
  chart : option chartState
}.

(** The state the constructor sets. *)
Definition initial : state := mkState IdNull false None None.

(** The state after the object [getDerivedStateFromProps] returns has
    been merged into it. *)
Definition getDerivedStateFromProps (p : props) (s : state) : state :=
  let mode :=
    if tooltipFunc p then ModeFunc
    else if tooltipComponent p then ModeComponent
    else ModeNone in
  let changed :=
    if bool_decide (prevData s = data p)
    then tooltipTargetChangedSinceLastDataUpdate s
    else false in
  mkState (tooltippedDataId s) changed (data p)
    (Some (mkChartState (data p) mode
             (if changed then tooltippedDataId s
              else initialTooltippedDataId p))).

(** [d.data._id] as an identity. *)
Definition id_of (d : Node.t) : dataId :=
  match _id (Node.data d) with
  | Some s => Id s
  | None => IdUndefined
  end.

(** The state after the [setState] of [_handleTooltip]. *)
Definition _handleTooltip (tooltipped : bool) (d : Node.t) (s : state)
    : state :=
  mkState (if tooltipped then id_of d else IdNull) true
          (prevData s) (chart s).

(** A call of [this.onTooltip], if one is made. *)
Definition onTooltip (call : option (bool * Node.t)) (s : state) : state :=
  match call with
  | Some (tooltipped, d) => _handleTooltip tooltipped d s
  | None => s
  end.

End Component.

(** ** More concrete charts *)

Module Examples.

(** A chart in mode ['none'] with the tooltip on a given identity: the
    props of a host that gives neither [tooltipFunc] nor
    [tooltipComponent]. *)
Definition props_plain (id : string) : Props.t :=
  Props.mk None None None None None None None Scenario.palette (0, 1)%Q
    (Some 1%nat) (Id id) true ModeNone ["value"] 5.

(** As [props_plain] in mode ['func']. *)
Definition props_func (id : string) : Props.t :=
  Props.mk None None None None None None None Scenario.palette (0, 1)%Q
    (Some 1%nat) (Id id) true ModeFunc ["value"] 5.

(** A [tooltipFunc] that returns [false]. *)
Definition veto (d : Node.t) (c : option string) : bool := true.

Definition host_props : Component.props :=
  Component.mkProps (Some 1%nat) IdUndefined false true.



Definition three_colours : list legendEntry :=
  [LegendString "#fee"; LegendObject "#e88" (Some "#fff");
   LegendString "#e33"].

Definition props_legend : Props.t :=
  Props.mk None None None None None None None three_colours (0, 1)%Q
    (Some 1%nat) IdUndefined false ModeNone [] 5.

(** Rendering [Scenario.next_nodes] when the elements on screen are
    those of the same data laid out in a container half the size: a
    circle for each leaf, a label for each node. *)
Definition leaves (nodes : list Node.t) : list Node.t :=
  filter (fun d => Node.children d = false) nodes.

Definition halved (d : Node.t) : Node.t :=
  Node.mk (Node.data d) (Node.x d / 2) (Node.y d / 2) (Node.r d / 2)
          (Node.children d).

Definition again_render : Chart.t * Chart.plan :=
  Eval vm_compute in
    Scenario.outcome
      (Scenario.update0 (Chart.construct Scenario.props0) Scenario.props0
         Scenario.no_props Scenario.next_nodes
         (map halved (leaves Scenario.next_nodes))
         (map halved Scenario.next_nodes)).

(** A chart constructed without a font size factor and then updated with
    props that carry one. *)
Definition late_font_render : Chart.t * Chart.plan :=
  Eval vm_compute in
    Scenario.outcome
      (Scenario.update0 (Chart.construct Scenario.props0) Scenario.props_font
         Scenario.no_props Scenario.first_nodes [] []).

(** Stand-ins for [Math.atan2], [Math.cos] and [Math.sin] that take
    their values on rationals: the first terms of the series, exact for
    a point on the horizontal axis right of the centre (angle 0, cosine
    1, sine 0). *)
Definition atan2_near_axis (dy dx : Q) : Q := dy / dx.
Definition cos_near_0 (t : Q) : Q := 1 - t * t / 2.
Definition sin_near_0 (t : Q) : Q := t.

(** [a] and [b] are on screen, [a] on the horizontal axis of a canvas of
    side 500, right of the centre; [b] and [c] arrive, so the circle and
    the label of [a] exit. *)
Definition circles_with_a : list Node.t :=
  [Scenario.leaf "a" 400 250 20; Scenario.leaf "b" 150 150 20].
Definition labels_with_a : list Node.t :=
  [Scenario.root; Scenario.leaf "a" 400 250 20; Scenario.leaf "b" 150 150 20].

Definition update_near_axis :=
  Chart.update atan2_near_axis cos_near_0 sin_near_0
    (Scenario.box 500 500 100 40) Scenario.fade0 Scenario.func0.

Definition exit_render : Chart.t * Chart.plan :=
  Eval vm_compute in
    Scenario.outcome
      (update_near_axis (Chart.construct Scenario.props0) Scenario.props0
         Scenario.no_props Scenario.next_nodes circles_with_a labels_with_a).

End Examples.

(** * Properties *)

(** ** The quantizer *)

Section QuantizeFacts.
Import Quantize.
Local Open Scope Q_scope.













(** [Double.round] against the binary64 arithmetic of the kernel, on the
    operations that compute the seventh cut point of [[0, 0.3]] cut for
    ten colours, [(7 * 0.3 - (-3) * 0) / 10], and on its comparison with
    0.21. *)
Lemma round_agrees_with_binary64 :
  let x := (3 / 10)%float in
  let v := (21 / 100)%float in
  let cut := ((7 * x - (-3) * 0) / 10)%float in
  Double.of_float x = Double.round (3 # 10) /\
  Double.of_float v = Double.round (21 # 100) /\
  Double.of_float (7 * x)%float
  = Double.round (7 * Double.round (3 # 10)) /\
  Double.of_float cut = threshold 0 (Double.round (3 # 10)) 9 6 /\
  PrimFloat.leb cut v = false /\
  Qle_bool (threshold 0 (Double.round (3 # 10)) 9 6)
           (Double.round (21 # 100)) = false.
Proof. vm_compute. repeat split; reflexivity. Qed.



End QuantizeFacts.

(** ** The keyed join *)

Section JoinFacts.
Import Join.

(** Slots of the second loop, whatever the keys: each one holds the
    datum of its own index. *)
Lemma key_data_slots (data : list Node.t) :
  forall (m m' : gmap string (option nat)) up en,
    key_data data m = (m', up, en) ->
    length up = length data /\ length en = length data /\
    (forall i j d, up !! i = Some (Some (j, d)) -> data !! i = Some d) /\
    (forall i d, en !! i = Some (Some d) -> data !! i = Some d).
Proof.
  induction data as [|d rest IH]; intros m m' up en H; cbn [key_data] in H.
  - inversion H; subst. repeat split; intros; simplify_list_eq.
  - destruct (m !! key d) as [[node|]|] eqn:Hm.
    + destruct (key_data rest (<[key d:=None]> m)) as [[m2 up2] en2] eqn:Hrest.
      inversion H; subst. apply IH in Hrest as (Hlu & Hle & Hu & He).
      repeat split; cbn [length]; try congruence.
      * intros [|i] j d' Hi; cbn in *; [congruence | eauto].
      * intros [|i] d' Hi; cbn in *; [congruence | eauto].
    + destruct (key_data rest m) as [[m2 up2] en2] eqn:Hrest.
      inversion H; subst. apply IH in Hrest as (Hlu & Hle & Hu & He).
      repeat split; cbn [length]; try congruence.
      * intros [|i] j d' Hi; cbn in *; [congruence | eauto].
      * intros [|i] d' Hi; cbn in *; [congruence | eauto].
    + destruct (key_data rest m) as [[m2 up2] en2] eqn:Hrest.
      inversion H; subst. apply IH in Hrest as (Hlu & Hle & Hu & He).
      repeat split; cbn [length]; try congruence.
      * intros [|i] j d' Hi; cbn in *; [congruence | eauto].
      * intros [|i] d' Hi; cbn in *; [congruence | eauto].
Qed.

Lemma key_data_nodup (data : list Node.t) :
  forall (m m' : gmap string (option nat)) up en,
    NoDup (key <$> data) ->
    key_data data m = (m', up, en) ->
    up = joined m <$> data /\ en = placed m <$> data /\
    (forall k, m' !! k =
               if decide (k ∈ key <$> data) then released (m !! k) else m !! k).
Proof.
  induction data as [|d rest IH]; intros m m' up en Hnd H; cbn [key_data] in H.
  - inversion H; subst. repeat split.
  - rewrite fmap_cons in Hnd. apply NoDup_cons in Hnd as [Hfresh Hnd].
    assert (Hother : forall d', d' ∈ rest -> key d <> key d').
    { intros d' Hd' E. apply Hfresh. rewrite E.
      apply list_elem_of_fmap. exists d'. split; [reflexivity|exact Hd']. }
    assert (Hext : forall v, joined (<[key d:=v]> m) <$> rest = joined m <$> rest
                          /\ placed (<[key d:=v]> m) <$> rest = placed m <$> rest).
    { intros v. split; apply list_fmap_ext; intros i d' Hd';
        apply list_elem_of_lookup_2 in Hd'; apply Hother in Hd';
        unfold joined, placed; rewrite lookup_insert_ne by exact Hd';
        reflexivity. }
    destruct (m !! key d) as [[node|]|] eqn:Hm.
    + destruct (key_data rest (<[key d:=None]> m)) as [[m2 up2] en2] eqn:Hrest.
      inversion H; subst. apply IH in Hrest as (Hu & He & Hmap); [|exact Hnd].
      destruct (Hext None) as [Hj Hp].
      split; [|split].
      * rewrite fmap_cons. unfold joined at 1. rewrite Hm, Hu, Hj. reflexivity.
      * rewrite fmap_cons. unfold placed at 1. rewrite Hm, He, Hp. reflexivity.
      * intros k. rewrite Hmap, fmap_cons.
        destruct (decide (k = key d)) as [->|Hne].
        -- rewrite lookup_insert_eq, Hm.
           destruct (decide (key d ∈ key <$> rest)); [contradiction|].
           destruct (decide (key d ∈ key d :: (key <$> rest))) as [|Hn];
             [reflexivity|]. exfalso. apply Hn. left.
        -- rewrite lookup_insert_ne by congruence.
           destruct (decide (k ∈ key <$> rest)) as [Hin|Hnin];
             destruct (decide (k ∈ key d :: (key <$> rest))) as [Hin'|Hnin'];
             try reflexivity.
           ++ exfalso. apply Hnin'. right. exact Hin.
           ++ exfalso. apply elem_of_cons in Hin' as [|]; contradiction.
    + destruct (key_data rest m) as [[m2 up2] en2] eqn:Hrest.
      inversion H; subst. apply IH in Hrest as (Hu & He & Hmap); [|exact Hnd].
      split; [|split].
      * rewrite fmap_cons. unfold joined at 1. rewrite Hm, Hu. reflexivity.
      * rewrite fmap_cons. unfold placed at 1. rewrite Hm, He. reflexivity.
      * intros k. rewrite Hmap, fmap_cons.
        destruct (decide (k = key d)) as [->|Hne].
        -- rewrite Hm.
           destruct (decide (key d ∈ key <$> rest)); [contradiction|].
           destruct (decide (key d ∈ key d :: (key <$> rest))); reflexivity.
        -- destruct (decide (k ∈ key <$> rest)) as [Hin|Hnin];
             destruct (decide (k ∈ key d :: (key <$> rest))) as [Hin'|Hnin'];
             try reflexivity.
           ++ exfalso. apply Hnin'. right. exact Hin.
           ++ exfalso. apply elem_of_cons in Hin' as [|]; contradiction.
    + destruct (key_data rest m) as [[m2 up2] en2] eqn:Hrest.
      inversion H; subst. apply IH in Hrest as (Hu & He & Hmap); [|exact Hnd].
      split; [|split].
      * rewrite fmap_cons. unfold joined at 1. rewrite Hm, Hu. reflexivity.
      * rewrite fmap_cons. unfold placed at 1. rewrite Hm, He. reflexivity.
      * intros k. rewrite Hmap, fmap_cons.
        destruct (decide (k = key d)) as [->|Hne].
        -- rewrite Hm.
           destruct (decide (key d ∈ key <$> rest)); [contradiction|].
           destruct (decide (key d ∈ key d :: (key <$> rest))); reflexivity.
        -- destruct (decide (k ∈ key <$> rest)) as [Hin|Hnin];
             destruct (decide (k ∈ key d :: (key <$> rest))) as [Hin'|Hnin'];
             try reflexivity.
           ++ exfalso. apply Hnin'. right. exact Hin.
           ++ exfalso. apply elem_of_cons in Hin' as [|]; contradiction.
Qed.

Lemma key_nodes_nodup (group : list Node.t) :
  forall (i : nat) (m m' : gmap string (option nat)) ex,
    NoDup (key <$> group) ->
    (forall d, d ∈ group -> m !! key d = None) ->
    key_nodes i group m = (m', ex) ->
    ex = replicate (length group) None /\
    (forall j d, group !! j = Some d -> m' !! key d = Some (Some (i + j))) /\
    (forall k, k ∉ key <$> group -> m' !! k = m !! k).
Proof.
  induction group as [|node rest IH]; intros i m m' ex Hnd Hfree H;
    cbn [key_nodes] in H.
  - inversion H; subst. repeat split; intros; simplify_list_eq.
  - rewrite fmap_cons in Hnd. apply NoDup_cons in Hnd as [Hfresh Hnd].
    rewrite (Hfree node) in H by left.
    destruct (key_nodes (S i) rest (<[key node:=Some i]> m))
      as [m2 ex2] eqn:Hrest.
    inversion H; subst.
    apply IH in Hrest as (Hex & Hown & Hout); [|exact Hnd|].
    + split; [|split].
      * cbn. rewrite Hex. reflexivity.
      * intros [|j] d Hd; cbn in Hd.
        -- inversion Hd; subst. rewrite Hout by exact Hfresh.
           rewrite lookup_insert_eq. do 2 f_equal. lia.
        -- rewrite (Hown j d Hd). do 2 f_equal. lia.
      * intros k Hk. rewrite fmap_cons in Hk.
        apply not_elem_of_cons in Hk as [Hne Hk].
        rewrite Hout by exact Hk. apply lookup_insert_ne. congruence.
    + intros d Hd. rewrite lookup_insert_ne.
      * apply Hfree. right. exact Hd.
      * intros E. apply Hfresh. rewrite E. apply list_elem_of_fmap.
        exists d. split; [reflexivity|exact Hd].
Qed.




Lemma key_nodes_slots (group : list Node.t) :
  forall (i : nat) (m m' : gmap string (option nat)) ex,
    key_nodes i group m = (m', ex) ->
    length ex = length group /\
    forall p j d, ex !! p = Some (Some (j, d)) -> group !! p = Some d.
Proof.
  induction group as [|node rest IH]; intros i m m' ex H; cbn [key_nodes] in H.
  - inversion H; subst. split; [reflexivity|]. intros; simplify_list_eq.
  - destruct (m !! key node).
    + destruct (key_nodes (S i) rest m) as [m2 ex2] eqn:Hrest.
      inversion H; subst. apply IH in Hrest as [Hlen Hs].
      split; [cbn [length]; f_equal; exact Hlen|].
      intros [|p] j d Hp; [by simplify_list_eq | cbn in Hp; eauto].
    + destruct (key_nodes (S i) rest (<[key node:=Some i]> m))
        as [m2 ex2] eqn:Hrest.
      inversion H; subst. apply IH in Hrest as [Hlen Hs].
      split; [cbn [length]; f_equal; exact Hlen|].
      intros [|p] j d Hp; [by simplify_list_eq | cbn in Hp; eauto].
Qed.

Lemma unbound_slots (group : list Node.t) :
  forall (i : nat) (m : gmap string (option nat)) ex,
    (forall p j d, ex !! p = Some (Some (j, d)) -> group !! p = Some d) ->
    forall p j d, unbound i group m ex !! p = Some (Some (j, d)) ->
                  group !! p = Some d.
Proof.
  induction group as [|node rest IH]; intros i m ex Hex p j d H;
    cbn [unbound] in H.
  - destruct ex; simplify_list_eq.
  - destruct ex as [|e ex']; [simplify_list_eq|].
    destruct p as [|p]; cbn in H.
    + destruct (decide _); [inversion H; subst; reflexivity|].
      inversion H; subst. apply (Hex 0%nat j d). reflexivity.
    + eapply (IH (S i) m ex'); [|exact H].
      intros q j' d' Hq. apply (Hex (S q) j' d'). exact Hq.
Qed.

(** Every slot of a join holds the datum of its own index: the new datum
    in [update] and [enter], the bound one in [exit]. *)
Lemma bindKey_slots (group data : list Node.t) :
  (forall i j d, update (bindKey group data) !! i = Some (Some (j, d)) ->
                 data !! i = Some d) /\
  (forall i d, enter (bindKey group data) !! i = Some (Some d) ->
               data !! i = Some d) /\
  (forall i j d, exit (bindKey group data) !! i = Some (Some (j, d)) ->
                 group !! i = Some d).
Proof.
  unfold bindKey.
  destruct (key_nodes 0 group ∅) as [m1 ex1] eqn:H1.
  destruct (key_data data m1) as [[m2 up] en] eqn:H2.
  apply key_nodes_slots in H1 as [_ Hex].
  apply key_data_slots in H2 as (_ & _ & Hup & Hen).
  cbn [update enter exit]. split; [exact Hup|]. split; [exact Hen|].
  apply unbound_slots, Hex.
Qed.

Lemma bindKey_data (group data : list Node.t) (d : Node.t) :
  d ∈ update_data (bindKey group data) ++ enter_data (bindKey group data) ->
  d ∈ data.
Proof.
  destruct (bindKey_slots group data) as (Hup & Hen & _).
  unfold update_data, enter_data. rewrite elem_of_app, !list_elem_of_omap.
  intros [(o & Ho & Hd)|(o & Ho & Hd)].
  - destruct o as [[j d']|]; cbn in Hd; [|discriminate]. inversion Hd; subst.
    apply list_elem_of_lookup in Ho as [i Hi].
    eapply list_elem_of_lookup_2, Hup, Hi.
  - subst o. apply list_elem_of_lookup in Ho as [i Hi].
    eapply list_elem_of_lookup_2, Hen, Hi.
Qed.

End JoinFacts.

(** ** One update cycle *)

Lemma indexed_lookup {A : Type} (group : list (option A)) (i : nat) (a : A) :
  (i, a) ∈ indexed group <-> group !! i = Some (Some a).
Proof.
  unfold indexed. rewrite list_elem_of_omap. split.
  - intros (o & Ho & ->). apply list_elem_of_lookup in Ho as [k Hk].
    rewrite list_lookup_imap in Hk.
    destruct (group !! k) as [[b|]|] eqn:Hg; cbn in Hk; try discriminate.
    inversion Hk; subst. exact Hg.
  - intros Hg. exists (Some (i, a)). split; [|reflexivity].
    apply list_elem_of_lookup. exists i.
    rewrite list_lookup_imap, Hg. reflexivity.
Qed.

Lemma mapM_Ok {A B : Type} (f : A -> result B) (l : list A) (l' : list B) :
  mapM f l = Ok l' ->
  forall b, b ∈ l' -> exists a, a ∈ l /\ f a = Ok b.
Proof.
  revert l'. induction l as [|a l IH]; intros l' H b Hb; cbn in H.
  - inversion H; subst. inversion Hb.
  - destruct (f a) as [b0|] eqn:Hfa; cbn in H; [|discriminate].
    destruct (mapM f l) as [l0|] eqn:Hl; cbn in H; [|discriminate].
    inversion H; subst. apply elem_of_cons in Hb as [->|Hb].
    + exists a. split; [left | exact Hfa].
    + destruct (IH l0 eq_refl b Hb) as (a' & Ha' & Hf).
      exists a'. split; [right; exact Ha' | exact Hf].
Qed.

Section ChartFacts.
Import Chart.
Local Open Scope Q_scope.

Variable Math_atan2 : Q -> Q -> Q.
Variable Math_cos : Q -> Q.
Variable Math_sin : Q -> Q.
Variable measure : Tooltip.t -> Measures.t.
Variable fade : option string -> string.
Variable tooltipFunc_false : Node.t -> option string -> bool.

Local Abbreviation update :=
  (update Math_atan2 Math_cos Math_sin measure fade tooltipFunc_false).
Local Abbreviation adjustTooltipPosition := (adjustTooltipPosition measure).
Local Abbreviation _showTooltip :=
  (_showTooltip measure fade tooltipFunc_false).
Local Abbreviation _updateTooltip :=
  (_updateTooltip measure fade tooltipFunc_false).
Local Abbreviation circle_exit := (circle_exit Math_atan2 Math_cos Math_sin).
Local Abbreviation label_exit := (label_exit Math_atan2 Math_cos Math_sin).
Local Abbreviation cycle_chart := (cycle_chart measure).
Local Abbreviation scheduled_circle :=
  (scheduled_circle Math_atan2 Math_cos Math_sin).
Local Abbreviation scheduled_label :=
  (scheduled_label Math_atan2 Math_cos Math_sin).

Lemma same_chart_refl (c : t) : same_chart c c.
Proof. destruct c; reflexivity. Qed.

Lemma same_chart_set (c : t) (tt : Tooltip.t) : same_chart c (set_tooltip c tt).
Proof. destruct c; reflexivity. Qed.

Lemma same_chart_trans (a b c : t) :
  same_chart a b -> same_chart b c -> same_chart a c.
Proof.
  unfold same_chart. intros Hab Hbc. rewrite Hbc at 1. rewrite Hab at 1.
  destruct a; reflexivity.
Qed.

Lemma adjustTooltipPosition_same (c c' : t) :
  adjustTooltipPosition c = Ok c' -> same_chart c c'.
Proof.
  unfold Chart.adjustTooltipPosition. intros H.
  destruct (truthy_id _) as [id|].
  - destruct (findNodeByDataId c id) as [[d|]|]; cbn in H.
    + inversion H; subst. apply same_chart_set.
    + inversion H; subst. apply same_chart_refl.
    + discriminate.
  - inversion H; subst. apply same_chart_refl.
Qed.

Lemma _showTooltip_same (c c' : t) (d : Node.t) :
  _showTooltip c d = Ok c' -> same_chart c c'.
Proof.
  unfold Chart._showTooltip. intros H.
  destruct (call (color c) _) as [fill|]; cbn in H; [|discriminate].
  destruct (match Props.mode (props c) with ModeFunc => _ | _ => false end).
  - inversion H; subst. apply same_chart_refl.
  - destruct (match Props.mode (props c) with ModeComponent => _ | _ => _ end);
      cbn in H; [|discriminate].
    apply adjustTooltipPosition_same in H.
    eapply same_chart_trans; [apply same_chart_set | exact H].
Qed.

Lemma _updateTooltip_same (c c' : t) (id prevId : dataId)
    (data prevData : option nat) :
  _updateTooltip c id prevId data prevData = Ok c' -> same_chart c c'.
Proof.
  unfold Chart._updateTooltip. intros H.
  destruct (_ && _).
  - inversion H; subst. apply same_chart_refl.
  - destruct (match truthy_id id with Some _ => _ | None => _ end) as [[d|]|];
      cbn in H; [| |discriminate].
    + apply _showTooltip_same in H.
      eapply same_chart_trans; [apply same_chart_set | exact H].
    + inversion H; subst. apply same_chart_set.
Qed.

Lemma update_inv (c c' : t) (p prevProps : Props.t)
    (nodes circleElements labelElements : list Node.t) (pl : plan) :
  update c p prevProps nodes circleElements labelElements = Ok (c', Some pl) ->
  exists fill text,
    let c1 := cycle_chart c p fill text nodes circleElements labelElements in
    same_chart c1 c' /\
    (forall s, s ∈ circle_ops pl -> scheduled_circle c1 nodes circleElements s) /\
    (forall s, s ∈ label_ops pl -> scheduled_label c1 nodes labelElements s).
Proof.
  unfold Chart.update. intros H.
  destruct (Props.data p) as [ref|]; [|discriminate].
  destruct (Quantize.scaleQuantize _ (colorRange p)) as [fill|]; [|discriminate].
  destruct (Quantize.scaleQuantize _ (textColorRange p)) as [text|];
    [|discriminate].
  exists fill, text. fold (cycle_chart c p fill text nodes circleElements labelElements) in H.
  set (c1 := cycle_chart c p fill text nodes circleElements labelElements) in *.
  cbv zeta.
  destruct (bindKey_slots circleElements nodes) as (Hcu & Hce & Hcx).
  destruct (bindKey_slots labelElements nodes) as (Hlu & Hle & Hlx).
  set (some := (0 <? length nodes)%nat) in *. clearbody some.
  destruct (mapM (circle_update c1) _) as [cu|] eqn:Ecu; cbn in H; [|discriminate].
  destruct (mapM (label_update c1) _) as [lu|] eqn:Elu; cbn in H; [|discriminate].
  destruct (if some then mapM (circle_enter c1) _ else _)
    as [ce|] eqn:Ece; cbn in H; [|discriminate].
  destruct (if some then mapM (label_enter c1) _ else _)
    as [le|] eqn:Ele; cbn in H; [|discriminate].
  destruct (_updateTooltip c1 _ _ _ _) as [c2|] eqn:Eut; cbn in H; [|discriminate].
  destruct (adjustTooltipPosition c2) as [c3|] eqn:Eat; cbn in H; [|discriminate].
  inversion H; subst c3 pl; clear H.
  split; [|split].
  - eapply same_chart_trans.
    + eapply _updateTooltip_same, Eut.
    + eapply adjustTooltipPosition_same, Eat.
  - intros s Hs. cbn [circle_ops] in Hs.
    apply elem_of_app in Hs as [Hs|Hs]; [|apply elem_of_app in Hs as [Hs|Hs]].
    + left. destruct (mapM_Ok _ _ _ Ecu s Hs) as ([i [j d]] & Hin & Hf).
      apply indexed_lookup in Hin. exists i, j, d. split; [eapply Hcu, Hin|exact Hf].
    + right; left. destruct some.
      * destruct (mapM_Ok _ _ _ Ece s Hs) as ([i d] & Hin & Hf).
        apply list_elem_of_In, filter_In in Hin as [Hin Hleaf].
        apply list_elem_of_In, indexed_lookup in Hin. cbn in Hleaf.
        exists i, d. split; [eapply Hce, Hin|]. split; [|exact Hf].
        destruct (Node.children d); [discriminate | reflexivity].
      * inversion Ece; subst. inversion Hs.
    + right; right. apply list_elem_of_fmap in Hs as ([i [j d]] & -> & Hin).
      apply indexed_lookup in Hin. exists i, j, d. split; [eapply Hcx, Hin|reflexivity].
  - intros s Hs. cbn [label_ops] in Hs.
    apply elem_of_app in Hs as [Hs|Hs]; [|apply elem_of_app in Hs as [Hs|Hs]].
    + left. destruct (mapM_Ok _ _ _ Elu s Hs) as ([i [j d]] & Hin & Hf).
      apply indexed_lookup in Hin. exists i, j, d. split; [eapply Hlu, Hin|exact Hf].
    + right; left. destruct some.
      * destruct (mapM_Ok _ _ _ Ele s Hs) as ([i d] & Hin & Hf).
        apply indexed_lookup in Hin.
        exists i, d. split; [eapply Hle, Hin|exact Hf].
      * inversion Ele; subst. inversion Hs.
    + right; right. apply list_elem_of_fmap in Hs as ([i [j d]] & -> & Hin).
      apply indexed_lookup in Hin. exists i, j, d. split; [eapply Hlx, Hin|reflexivity].
Qed.

Lemma cycle_chart_fields (c : t) (p : Props.t) (fill text : Quantize.scale)
    (nodes circleElements labelElements : list Node.t) :
  let c1 := cycle_chart c p fill text nodes circleElements labelElements in
  duration c1 = duration c /\ delay c1 = delay c /\
  fontSizeFactor c1 = fontSizeFactor c /\
  selectedColor c1 = selectedColor c /\
  diameter c1 = Qmin (Measures.container_offsetWidth (measure (tooltip c)))
                     (Measures.container_offsetHeight (measure (tooltip c))) /\
  color c1 = Some fill /\
  circles c1 = Some (Join.bindKey circleElements nodes).
Proof.
  unfold cycle_chart, configureTooltip.
  destruct (Props.tooltip p); [destruct (Props.mode p)|]; repeat split.
Qed.

Lemma same_chart_fields (c c' : t) :
  same_chart c c' ->
  duration c' = duration c /\ delay c' = delay c /\
  fontSizeFactor c' = fontSizeFactor c /\
  selectedColor c' = selectedColor c /\
  diameter c' = diameter c /\ color c' = color c /\ circles c' = circles c /\
  props c' = props c.
Proof. unfold same_chart. intros ->. repeat split. Qed.

Ltac in_list :=
  repeat first [apply list_elem_of_here | apply list_elem_of_further].

Ltac tween_cases H :=
  repeat (apply elem_of_cons in H as [H|H]; [inversion H; subst; clear H|]);
  [..|inversion H].

Ltac invert_scheduled H :=
  unfold circle_update, label_update, circle_enter, label_enter in H;
  match type of H with
  | context [getCircleColor ?c ?d] => destruct (getCircleColor c d); cbn in H
  | context [getLabelColor ?c ?d] => destruct (getLabelColor c d); cbn in H
  end;
  [inversion H; subst; clear H | discriminate].

(** C6, amended.  The chart's duration and delay are the configured
    ones, 500 and 7 when the props give none, and a cycle leaves them
    as they are.  A transition on an updating element lasts the
    configured duration and starts after [index * delay], [index] being
    the position of its node among the new nodes; a transition on an
    entering element lasts 1.2 times the configured duration and starts
    at once; a transition on an exiting element lasts the configured
    duration and starts at once. *)
Theorem transition_timing (c c' : t) (p prevProps : Props.t)
    (nodes circleElements labelElements : list Node.t) (pl : plan) :
  update c p prevProps nodes circleElements labelElements = Ok (c', Some pl) ->
  (forall p0 : Props.t,
      duration (construct p0) = if_undefined (Props.duration p0) 500 /\
      delay (construct p0) = if_undefined (Props.delay p0) 7) /\
  duration c' = duration c /\ delay c' = delay c /\
  forall s : Scheduled.t,
    s ∈ circle_ops pl ++ label_ops pl ->
    match Scheduled.phase_of s with
    | Updating =>
        Transition.duration (Scheduled.transition s) = duration c' /\
        Transition.delay (Scheduled.transition s)
          = inject_Z (Z.of_nat (Scheduled.index s)) * delay c' /\
        nodes !! Scheduled.index s = Some (Scheduled.datum_of s)
    | Entering =>
        Transition.duration (Scheduled.transition s) = duration c' * 1.2 /\
        Transition.delay (Scheduled.transition s) = 0
    | Exiting =>
        Transition.duration (Scheduled.transition s) = duration c' /\
        Transition.delay (Scheduled.transition s) = 0
    end.
Proof.
  intros H. apply update_inv in H as (fill & text & Hsame & Hc & Hl).
  cbv zeta in *.
  destruct (cycle_chart_fields c p fill text nodes circleElements labelElements)
    as (Hd1 & Hy1 & _).
  destruct (same_chart_fields _ _ Hsame) as (Hd & Hy & _).
  split; [intros p0; split; reflexivity|].
  rewrite Hd, Hy. split; [exact Hd1|]. split; [exact Hy1|].
  intros s Hs. apply elem_of_app in Hs as [Hs|Hs].
  - destruct (Hc s Hs) as [(i & j & d & Hn & Hf)|[(i & d & Hn & _ & Hf)|
                             (i & j & d & Hn & ->)]].
    + invert_scheduled Hf. cbn. auto.
    + invert_scheduled Hf. cbn. auto.
    + cbn. auto.
  - destruct (Hl s Hs) as [(i & j & d & Hn & Hf)|[(i & d & Hn & Hf)|
                             (i & j & d & Hn & ->)]].
    + invert_scheduled Hf. cbn. auto.
    + invert_scheduled Hf. cbn. auto.
    + cbn. auto.
Qed.

(** C5, amended.  An entering circle starts with radius 0 and an
    entering label with opacity 0, both at the position computed for
    their node; the transition of the circle changes its radius and
    opacity and restates its position unchanged; the transition of the
    label changes its opacity and sets the font size
    ([fontSizeFactor * r], or nothing without a factor), and moves
    nothing. *)
Theorem entering_initial_state (c c' : t) (p prevProps : Props.t)
    (nodes circleElements labelElements : list Node.t) (pl : plan) :
  update c p prevProps nodes circleElements labelElements = Ok (c', Some pl) ->
  (forall s : Scheduled.t,
      s ∈ circle_ops pl -> Scheduled.phase_of s = Entering ->
      let d := Scheduled.datum_of s in
      nodes !! Scheduled.index s = Some d /\
      (Attr "r", VNum 0) ∈ Scheduled.initial s /\
      (Attr "transform", VTranslate (Node.x d) (Node.y d))
        ∈ Scheduled.initial s /\
      forall pr v, (pr, v) ∈ Transition.tweens (Scheduled.transition s) ->
        pr = Attr "r" \/ pr = Style "opacity" \/
        (pr, v) ∈ Scheduled.initial s) /\
  (forall s : Scheduled.t,
      s ∈ label_ops pl -> Scheduled.phase_of s = Entering ->
      let d := Scheduled.datum_of s in
      nodes !! Scheduled.index s = Some d /\
      (Style "opacity", VNum 0) ∈ Scheduled.initial s /\
      (Style "left", VPx (Node.x d - Node.r d)) ∈ Scheduled.initial s /\
      (Style "top", VPx (Node.y d - Node.r d)) ∈ Scheduled.initial s /\
      forall pr v, (pr, v) ∈ Transition.tweens (Scheduled.transition s) ->
        pr = Style "opacity" \/
        (pr = Style "font-size" /\ v = fontSize c' d)).
Proof.
  intros H. apply update_inv in H as (fill & text & Hsame & Hc & Hl).
  cbv zeta in *.
  assert (Hfs : forall d, fontSize c' d
     = fontSize (cycle_chart c p fill text nodes circleElements labelElements) d).
  { intros d. unfold fontSize.
    destruct (same_chart_fields _ _ Hsame) as (_ & _ & -> & _). reflexivity. }
  split.
  - intros s Hs Hph.
    destruct (Hc s Hs) as [(i & j & d & Hn & Hf)|[(i & d & Hn & _ & Hf)|
                             (i & j & d & Hn & ->)]].
    + invert_scheduled Hf. discriminate.
    + invert_scheduled Hf. cbn. split; [exact Hn|].
      split; [in_list|]. split; [in_list|].
      intros pr v Hin. tween_cases Hin.
      * right; right. apply list_elem_of_here.
      * left; reflexivity.
      * right; left; reflexivity.
    + discriminate.
  - intros s Hs Hph.
    destruct (Hl s Hs) as [(i & j & d & Hn & Hf)|[(i & d & Hn & Hf)|
                             (i & j & d & Hn & ->)]].
    + invert_scheduled Hf. discriminate.
    + invert_scheduled Hf. cbn. split; [exact Hn|].
      split; [in_list|]. split; [in_list|]. split; [in_list|].
      intros pr v Hin. rewrite Hfs. tween_cases Hin.
      * left; reflexivity.
      * right. split; reflexivity.
    + discriminate.
Qed.
Lemma ltb_lt (a b : Q) : ltb a b = true <-> a < b.
Proof.
  unfold ltb. rewrite negb_true_iff. split.
  - intros H. apply Qnot_le_lt. intros Hle. apply Qle_bool_iff in Hle. congruence.
  - intros H. destruct (Qle_bool b a) eqn:E; [|reflexivity].
    apply Qle_bool_iff in E. exfalso. apply (Qlt_not_le _ _ H E).
Qed.

Lemma gtb_gt (a b : Q) : gtb a b = true <-> b < a.
Proof. apply ltb_lt. Qed.

(** C1, amended.  For a tooltip target [d], with
    [width = offsetWidth + 1] and [origin_x] the offset of the [html]
    layer, the tooltip goes right of the node, at [x + r + margin], when
    [origin_x + x + r + width + margin < containerWidth]; otherwise left
    of it, at [x - r - width - margin], when
    [origin_x + x - r - width - margin > 0] (strictly); otherwise to
    [containerWidth - width - margin]; the side class is ['left']
    exactly in the second case. *)
Theorem tooltip_horizontal (c : t) (id : string) (d : Node.t) :
  truthy_id (Props.tooltippedDataId (props c)) = Some id ->
  findNodeByDataId c id = Ok (Some d) ->
  let m := measure (tooltip c) in
  let width := Measures.tooltip_offsetWidth m + 1 in
  let margin := Props.tooltipMargin (props c) in
  let origin_x := Measures.html_offsetLeft m in
  let containerWidth := Measures.container_offsetWidth m in
  let fits_right :=
    origin_x + Node.x d + Node.r d + width + margin < containerWidth in
  let fits_left := 0 < origin_x + Node.x d - Node.r d - width - margin in
  exists c' : t,
    adjustTooltipPosition c = Ok c' /\
    (fits_right ->
     Tooltip.left (tooltip c') = Some (VPx (Node.x d + Node.r d + margin)) /\
     Tooltip.classed (tooltip c') = Some SideRight) /\
    (~ fits_right -> fits_left ->
     Tooltip.left (tooltip c')
       = Some (VPx (Node.x d - Node.r d - width - margin)) /\
     Tooltip.classed (tooltip c') = Some SideLeft) /\
    (~ fits_right -> ~ fits_left ->
     Tooltip.left (tooltip c') = Some (VPx (containerWidth - width - margin)) /\
     Tooltip.classed (tooltip c') = Some SideRight) /\
    (Tooltip.classed (tooltip c') = Some SideLeft <-> ~ fits_right /\ fits_left).
Proof.
  intros Hid Hfound m width margin origin_x containerWidth fits_right fits_left.
  unfold Chart.adjustTooltipPosition. rewrite Hid, Hfound. cbn [mbind result_bind].
  eexists. split; [reflexivity|].
  cbn [tooltip set_tooltip Tooltip.left Tooltip.classed].
  unfold place_left. fold m. fold width margin origin_x containerWidth.
  destruct (ltb (origin_x + Node.x d + Node.r d + width + margin) containerWidth)
    eqn:Er.
  - apply ltb_lt in Er. cbn [fst snd].
    split; [auto|]. split; [intros Hn; contradiction|].
    split; [intros Hn; contradiction|].
    split; [discriminate | intros [Hn _]; contradiction].
  - assert (Hr : ~ fits_right).
    { intros Hf. apply ltb_lt in Hf. unfold fits_right in *. congruence. }
    destruct (gtb (origin_x + Node.x d - Node.r d - width - margin) 0) eqn:El.
    + apply gtb_gt in El. cbn [fst snd].
      split; [intros; contradiction|]. split; [auto|].
      split; [intros _ Hn; contradiction|]. split; auto.
    + assert (Hl : ~ fits_left).
      { intros Hf. apply gtb_gt in Hf. unfold fits_left in *. congruence. }
      cbn [fst snd].
      split; [intros; contradiction|]. split; [intros _ Hf; contradiction|].
      split; [auto|]. split; [discriminate | intros [_ Hf]; contradiction].
Qed.

(** C10.  When the identity the tooltip is asked for is borne by no node
    of the current generation, looking it up finds nothing without
    throwing, [adjustTooltipPosition] returns leaving the chart as it is
    (no position is written), and [_updateTooltip] returns with the
    tooltip hidden and its position cleared, or with the chart untouched
    when neither the identity nor the data changed. *)
Theorem absent_target_no_tooltip (c : t) (group nodes : list Node.t)
    (id : string) :
  circles c = Some (Join.bindKey group nodes) ->
  (forall d, d ∈ nodes -> _id (Node.data d) <> Some id) ->
  findNodeByDataId c id = Ok None /\
  (Props.tooltippedDataId (props c) = Id id -> adjustTooltipPosition c = Ok c) /\
  (forall (prevId : dataId) (data prevData : option nat),
      _updateTooltip c (Id id) prevId data prevData
      = Ok (if bool_decide (Id id = prevId) && bool_decide (data = prevData)
            then c else _hideTooltip c)) /\
  Tooltip.display (tooltip (_hideTooltip c)) = "none" /\
  Tooltip.left (tooltip (_hideTooltip c)) = None /\
  Tooltip.top (tooltip (_hideTooltip c)) = None.
Proof.
  intros Hc Habsent.
  assert (Hfind : findNodeByDataId c id = Ok None).
  { unfold findNodeByDataId. rewrite Hc. f_equal.
    destruct (List.find _ _) as [d|] eqn:Hf; [|reflexivity].
    apply find_some in Hf as [Hd Hid]. apply bool_decide_eq_true in Hid.
    exfalso. apply (Habsent d); [|exact Hid].
    apply list_elem_of_In in Hd. eapply bindKey_data, Hd. }
  split; [exact Hfind|]. split; [|split].
  - intros Hid. unfold Chart.adjustTooltipPosition. rewrite Hid. cbn [truthy_id].
    destruct (String.eqb id ""); [reflexivity|]. rewrite Hfind. reflexivity.
  - intros prevId data prevData. unfold Chart._updateTooltip.
    destruct (_ && _); [reflexivity|]. cbn [truthy_id].
    destruct (String.eqb id ""); [reflexivity|]. rewrite Hfind. reflexivity.
  - repeat split.
Qed.

(** C9, amended.  For a node that is not selected, or when a
    [selectedColor] is configured, [getCircleColor] returns the fill the
    legacy variant computes. *)
Theorem circle_fill_agrees (c : t) (color : Quantize.scale) (d : Node.t) :
  Chart.color c = Some color ->
  selected (Node.data d) = false \/ truthy (selectedColor c) = true ->
  getCircleColor c d = Ok (legacy_fill (selectedColor c) color d).
Proof.
  intros Hc Hsel. unfold getCircleColor, legacy_fill. rewrite Hc.
  destruct Hsel as [-> | ->]; [reflexivity|].
  destruct (selected (Node.data d)); reflexivity.
Qed.

End ChartFacts.

(** ** The scenarios *)

Section Scenarios.
Import Scenario.
Local Open Scope Q_scope.

Local Abbreviation adjust500 := (Chart.adjustTooltipPosition (box 500 500 100 40)).

Lemma first_render_returns :
  update0 (Chart.construct props0) props0 no_props first_nodes [] []
  = Ok (first_render.1, Some first_render.2).
Proof. vm_compute. reflexivity. Qed.

Lemma first_render_font_returns :
  update0 (Chart.construct props_font) props_font no_props first_nodes [] []
  = Ok (first_render_font.1, Some first_render_font.2).
Proof. vm_compute. reflexivity. Qed.

Lemma next_render_returns :
  update0 (Chart.construct props0) props0 no_props
          next_nodes circles_before labels_before
  = Ok (next_render.1, Some next_render.2).
Proof. vm_compute. reflexivity. Qed.






(** A degenerate domain whose cut points are rounded: with
    [fixedDomain = {min: 0.1, max: 0.1}] and three colours both cut
    points are computed as the double above 0.1, and 0.1 itself
    resolves to the first bucket. *)
Example degenerate_domain_rounded :
  let m := Double.round (1 # 10) in
  exists s : Quantize.scale,
    Quantize.scaleQuantize (m, m) ["#fee"; "#e88"; "#e33"] = Some s /\
    (forall c : Q, c ∈ Quantize.domain s -> m < c) /\
    Quantize.bucket s m = 0%nat.
Proof.
  cbv zeta. eexists. split; [reflexivity|]. split.
  - intros c Hc. cbn [Quantize.domain] in Hc.
    unfold Quantize.rescale in Hc. cbn [seq map] in Hc.
    repeat (apply elem_of_cons in Hc as [->|Hc];
            [vm_compute; reflexivity|]).
    inversion Hc.
  - vm_compute. reflexivity.
Qed.

(** A first render of the root and one leaf: the leaf's circle enters at
    index 1, with the default duration 500 and delay 7 configured. *)
Lemma entering_timing_counterexample :
  update0 (Chart.construct props0) props0 no_props first_nodes [] []
  = Ok (first_render.1, Some first_render.2) /\
  Chart.duration first_render.1 = 500 /\ Chart.delay first_render.1 = 7 /\
  exists s : Scheduled.t,
    s ∈ Chart.circle_ops first_render.2 /\
    Scheduled.phase_of s = Entering /\ Scheduled.index s = 1%nat /\
    Transition.duration (Scheduled.transition s) == 600 /\
    Transition.delay (Scheduled.transition s) == 0 /\
    ~ Transition.duration (Scheduled.transition s)
      == Chart.duration first_render.1 /\
    ~ Transition.delay (Scheduled.transition s)
      == inject_Z (Z.of_nat (Scheduled.index s)) * Chart.delay first_render.1.
Proof.
  split; [exact first_render_returns|]. split; [reflexivity|].
  split; [reflexivity|].
  eexists. split; [apply list_elem_of_here|].
  repeat split; try reflexivity; intros H; vm_compute in H; discriminate.
Qed.

Lemma transition_timing_witness :
  update0 (Chart.construct props0) props0 no_props
          next_nodes circles_before labels_before
  = Ok (next_render.1, Some next_render.2) /\
  exists s : Scheduled.t,
    s ∈ Chart.circle_ops next_render.2 /\
    Scheduled.phase_of s = Updating /\ Scheduled.index s = 1%nat /\
    Transition.duration (Scheduled.transition s) = 500 /\
    Transition.delay (Scheduled.transition s) = inject_Z 1 * 7.
Proof.
  split; [exact next_render_returns|].
  destruct (transition_timing _ _ _ _ _ _ _ _ _ _ _ _ _ _ next_render_returns)
    as (_ & _ & _ & Hall).
  eexists. split; [apply list_elem_of_here|].
  split; [reflexivity|]. split; [reflexivity|].
  match goal with
  | |- context [Scheduled.transition ?s] =>
      specialize (Hall s ltac:(apply list_elem_of_here))
  end.
  exact (conj (proj1 Hall) (proj1 (proj2 Hall))).
Defined.

(** A first render with [fontSizeFactor: 0.5]: the transition of the
    entering label of [a] (radius 20) also sets the font size, which is
    neither its radius nor its opacity and is not among the values the
    label starts with. *)
Lemma entering_font_size_counterexample :
  update0 (Chart.construct props_font) props_font no_props first_nodes [] []
  = Ok (first_render_font.1, Some first_render_font.2) /\
  exists s : Scheduled.t,
    s ∈ Chart.label_ops first_render_font.2 /\
    Scheduled.phase_of s = Entering /\
    Scheduled.datum_of s = leaf "a" 50 50 20 /\
    (Style "font-size", VPx (0.5 * 20))
      ∈ Transition.tweens (Scheduled.transition s) /\
    (Style "font-size", VPx (0.5 * 20)) ∉ Scheduled.initial s.
Proof.
  split; [exact first_render_font_returns|].
  eexists. split; [apply list_elem_of_further, list_elem_of_here|].
  split; [reflexivity|]. split; [reflexivity|].
  split; [apply list_elem_of_further, list_elem_of_here|].
  intros H. cbn in H.
  repeat (apply elem_of_cons in H as [H|H]; [discriminate|]).
  inversion H.
Qed.

Lemma entering_initial_state_witness :
  update0 (Chart.construct props0) props0 no_props
          next_nodes circles_before labels_before
  = Ok (next_render.1, Some next_render.2) /\
  exists s : Scheduled.t,
    s ∈ Chart.circle_ops next_render.2 /\
    Scheduled.phase_of s = Entering /\
    Scheduled.datum_of s = leaf "c" 140 140 20 /\
    next_nodes !! Scheduled.index s = Some (leaf "c" 140 140 20) /\
    (Attr "r", VNum 0) ∈ Scheduled.initial s /\
    (Attr "transform", VTranslate 140 140) ∈ Scheduled.initial s.
Proof.
  split; [exact next_render_returns|].
  destruct (entering_initial_state _ _ _ _ _ _ _ _ _ _ _ _ _ _
              next_render_returns) as (Hc & _).
  eexists. split; [apply list_elem_of_further, list_elem_of_here|].
  split; [reflexivity|]. split; [reflexivity|].
  match goal with
  | |- context [Scheduled.initial ?s] =>
      specialize (Hc s ltac:(apply list_elem_of_further, list_elem_of_here)
                       eq_refl)
  end.
  destruct Hc as (Hn & Hr & Ht & _).
  exact (conj Hn (conj Hr Ht)).
Defined.

(** A container 200 wide, a tooltip box of width 100 ([offsetWidth] 99),
    margin 5 and a node at [x = 125] of radius 20: the left placement
    would put the tooltip exactly at 0. *)
Lemma tooltip_left_boundary_counterexample :
  let d := leaf "n" 125 100 20 in
  let m := box 200 200 99 40 Chart.tooltip0 in
  Node.x d - Node.r d - (99 + 1) - 5 == 0 /\
  (Chart.place_left m 5 d).2 = SideRight /\
  (Chart.place_left m 5 d).1 == 95 /\
  (Chart.spec_place_left 200 (99 + 1) 5 d).2 = SideLeft /\
  (Chart.spec_place_left 200 (99 + 1) 5 d).1 == 0.
Proof. vm_compute. repeat split; reflexivity. Qed.

(** Scenario C of the specification: a container 500 by 500, margin 5, a
    tooltip measuring 100 by 40 and a node at (480, 250) of radius 20. *)
Lemma tooltip_horizontal_witness :
  let d := leaf "n" 480 250 20 in
  let c := rendered (props_tip "n") [root; d] in
  Chart.truthy_id (Props.tooltippedDataId (Chart.props c)) = Some "n" /\
  Chart.findNodeByDataId c "n" = Ok (Some d) /\
  exists c' : Chart.t,
    adjust500 c = Ok c' /\
    Tooltip.classed (Chart.tooltip c') = Some SideLeft /\
    Tooltip.left (Chart.tooltip c') = Some (VPx (480 - 20 - (100 + 1) - 5)).
Proof.
  cbv zeta.
  assert (Hid : Chart.truthy_id (Props.tooltippedDataId
                  (Chart.props (rendered (props_tip "n")
                                  [root; leaf "n" 480 250 20]))) = Some "n")
    by reflexivity.
  assert (Hfound : Chart.findNodeByDataId
                     (rendered (props_tip "n") [root; leaf "n" 480 250 20]) "n"
                   = Ok (Some (leaf "n" 480 250 20)))
    by (vm_compute; reflexivity).
  split; [exact Hid|]. split; [exact Hfound|].
  destruct (tooltip_horizontal (box 500 500 100 40) _ _ _ Hid Hfound)
    as (c' & Hc' & _ & Hleft & _ & _).
  exists c'. split; [exact Hc'|].
  destruct Hleft as [Hl Hs].
  - intros H. vm_compute in H. discriminate.
  - reflexivity.
  - split; [exact Hs | exact Hl].
Defined.

(** C2.  A container 500 high, a tooltip 40 high, margin 5 and a node at
    [y = 30]: centred, the tooltip would reach from 10 to 50, inside the
    container, and the specification's rule puts its top at 10; the
    chart tests [y - height < 0] and puts it at the margin, 5. *)
Theorem tooltip_top_clamps_early :
  let d := leaf "n" 250 30 20 in
  let c := rendered (props_tip "n") [root; d] in
  0 <= Node.y d - 40 / 2 /\ Node.y d + 40 / 2 <= 500 /\
  Chart.spec_place_top 500 40 5 d == 10 /\
  Chart.place_top (box 500 500 100 40 (Chart.tooltip c)) 5 d = 5 /\
  match adjust500 c with
  | Ok c' => Tooltip.top (Chart.tooltip c') = Some (VPx 5)
  | Throw _ => False
  end.
Proof.
  cbv zeta. split; [vm_compute; discriminate|].
  split; [vm_compute; discriminate|]. split; [reflexivity|].
  split; vm_compute; reflexivity.
Qed.

(** A selected node in a chart without [selectedColor]. *)
Lemma legacy_fill_counterexample :
  let d := chosen "a" 50 50 20 in
  let c := rendered props0 [root; d] in
  Chart.color c = Some scale0 /\
  selected (Node.data d) = true /\ Chart.selectedColor c = None /\
  Chart.getCircleColor c d = Ok (Some "#fee") /\
  Chart.legacy_fill (Chart.selectedColor c) scale0 d = None.
Proof. vm_compute. repeat split; reflexivity. Qed.

Lemma circle_fill_agrees_witness :
  let d := leaf "a" 50 50 20 in
  let c := rendered props0 [root; d] in
  Chart.color c = Some scale0 /\
  (selected (Node.data d) = false \/ truthy (Chart.selectedColor c) = true) /\
  Chart.getCircleColor c d = Ok (Chart.legacy_fill (Chart.selectedColor c) scale0 d).
Proof.
  cbv zeta. split; [reflexivity|]. split; [left; reflexivity|].
  apply circle_fill_agrees; [reflexivity | left; reflexivity].
Defined.

Lemma absent_target_no_tooltip_witness :
  let nodes := [root; leaf "a" 50 50 20] in
  let c := rendered (props_tip "zz") nodes in
  Chart.circles c = Some (Join.bindKey [] nodes) /\
  (forall d, d ∈ nodes -> _id (Node.data d) <> Some "zz") /\
  Chart.findNodeByDataId c "zz" = Ok None /\
  adjust500 c = Ok c.
Proof.
  cbv zeta.
  assert (Habsent : forall d, d ∈ [root; leaf "a" 50 50 20] ->
                              _id (Node.data d) <> Some "zz").
  { intros d Hd.
    repeat (apply elem_of_cons in Hd as [->|Hd]; [discriminate|]).
    inversion Hd. }
  split; [reflexivity|]. split; [exact Habsent|].
  destruct (absent_target_no_tooltip (box 500 500 100 40) fade0 func0
              (rendered (props_tip "zz") [root; leaf "a" 50 50 20])
              [] [root; leaf "a" 50 50 20] "zz" eq_refl Habsent)
    as (Hfind & Hadjust & _).
  split; [exact Hfind | exact (Hadjust eq_refl)].
Defined.

(** The scale of a two-colour palette over [[0, 1]] cuts at 1/2. *)
Example bucket_example :
  Quantize.bucket scale0 (1 # 4) = 0%nat /\
  Quantize.bucket scale0 (1 # 2) = 1%nat /\
  Quantize.apply scale0 (Some 1) = Some "#e33".
Proof. vm_compute. repeat split; reflexivity. Qed.

End Scenarios.

(** ** The join, whatever the keys *)

Section JoinMore.
Import Join.

(** The first loop, whatever the keys: a key keeps its owner, an element
    that is not put in [exit] owns its key, and every owner set by the
    loop is such an element. *)
Lemma key_nodes_owners (group : list Node.t) :
  forall (i : nat) (m m' : gmap string (option nat)) ex,
    key_nodes i group m = (m', ex) ->
    (forall k v, m !! k = Some v -> m' !! k = Some v) /\
    (forall p node, group !! p = Some node ->
       ex !! p = Some None /\ m' !! key node = Some (Some (i + p)) \/
       ex !! p = Some (Some (i + p, node))) /\
    (forall k j, m' !! k = Some (Some j) ->
       m !! k = Some (Some j) \/
       exists p node, j = i + p /\ group !! p = Some node /\
                      key node = k /\ ex !! p = Some None).
Proof.
  induction group as [|node rest IH]; intros i m m' ex H; cbn [key_nodes] in H.
  - inversion H; subst. split; [auto|]. split; [|auto].
    intros p node Hp. rewrite lookup_nil in Hp. discriminate.
  - destruct (m !! key node) as [v|] eqn:Hm.
    + destruct (key_nodes (S i) rest m) as [m2 ex2] eqn:Hrest.
      inversion H; subst. apply IH in Hrest as (Hkeep & Hown & Hsrc).
      split; [exact Hkeep|]. split.
      * intros [|p] node' Hp; cbn in Hp.
        -- inversion Hp; subst. right. rewrite Nat.add_0_r. reflexivity.
        -- replace (i + S p) with (S i + p) by lia. apply (Hown p node' Hp).
      * intros k j Hk. destruct (Hsrc k j Hk) as [Hold|(p & nd & -> & Hp & Hkey & Hex)].
        -- left. exact Hold.
        -- right. exists (S p), nd. split; [lia|]. auto.
    + destruct (key_nodes (S i) rest (<[key node:=Some i]> m))
        as [m2 ex2] eqn:Hrest.
      inversion H; subst. apply IH in Hrest as (Hkeep & Hown & Hsrc).
      split; [|split].
      * intros k v Hk. apply Hkeep. rewrite lookup_insert_ne; [exact Hk|].
        intros E. rewrite E in Hm. congruence.
      * intros [|p] node' Hp; cbn in Hp.
        -- inversion Hp; subst. left. split; [reflexivity|].
           rewrite Nat.add_0_r. apply Hkeep. apply lookup_insert_eq.
        -- replace (i + S p) with (S i + p) by lia. apply (Hown p node' Hp).
      * intros k j Hk. destruct (Hsrc k j Hk) as [Hold|(p & nd & -> & Hp & Hkey & Hex)].
        -- destruct (decide (key node = k)) as [<-|Hne].
           ++ rewrite lookup_insert_eq in Hold. inversion Hold; subst.
              right. exists 0%nat, node. split; [lia|]. auto.
           ++ rewrite lookup_insert_ne in Hold by exact Hne. left. exact Hold.
        -- right. exists (S p), nd. split; [lia|]. auto.
Qed.

(** The second loop, whatever the keys: a slot of [update] joins a datum
    to the owner of its key; a key joined once is not joined again; a key
    still owned at the end was owned at the start and joined by no datum;
    an owner either keeps its key or is joined. *)
Lemma key_data_owners (data : list Node.t) :
  forall (m m' : gmap string (option nat)) up en,
    key_data data m = (m', up, en) ->
    (forall i j d, up !! i = Some (Some (j, d)) -> m !! key d = Some (Some j)) /\
    (forall i1 i2 j1 j2 d1 d2,
        up !! i1 = Some (Some (j1, d1)) -> up !! i2 = Some (Some (j2, d2)) ->
        key d1 = key d2 -> i1 = i2) /\
    (forall k j, m' !! k = Some (Some j) ->
        m !! k = Some (Some j) /\
        forall i j' d, up !! i = Some (Some (j', d)) -> key d <> k) /\
    (forall k j, m !! k = Some (Some j) ->
        m' !! k = Some (Some j) \/
        exists i d, up !! i = Some (Some (j, d)) /\ key d = k).
Proof.
  induction data as [|d rest IH]; intros m m' up en H; cbn [key_data] in H.
  - inversion H; subst. repeat split; auto;
      intros; try (rewrite lookup_nil in *; discriminate).
  - destruct (m !! key d) as [[node|]|] eqn:Hm.
    + destruct (key_data rest (<[key d:=None]> m)) as [[m2 up2] en2] eqn:Hrest.
      inversion H; subst. apply IH in Hrest as (Hsl & Hone & Hend & Hown).
      assert (Hlater : forall i j d', up2 !! i = Some (Some (j, d')) ->
                                      key d' <> key d).
      { intros i j d' Hi E. apply Hsl in Hi. rewrite E, lookup_insert_eq in Hi.
        discriminate. }
      split; [|split; [|split]].
      * intros [|i] j d' Hi; cbn in Hi.
        -- inversion Hi; subst. exact Hm.
        -- pose proof (Hlater i j d' Hi) as Hne. apply Hsl in Hi.
           rewrite lookup_insert_ne in Hi by congruence. exact Hi.
      * intros [|i1] [|i2] j1 j2 d1 d2 H1 H2 E; cbn in H1, H2.
        -- reflexivity.
        -- inversion H1; subst. exfalso. apply (Hlater i2 j2 d2 H2). congruence.
        -- inversion H2; subst. exfalso. apply (Hlater i1 j1 d1 H1). congruence.
        -- f_equal. eapply Hone; eassumption.
      * intros k j Hk. destruct (Hend k j Hk) as [Hk2 Hno].
        assert (Hne : key d <> k).
        { intros E. rewrite <- E, lookup_insert_eq in Hk2. discriminate. }
        rewrite lookup_insert_ne in Hk2 by exact Hne. split; [exact Hk2|].
        intros [|i] j' d' Hi; cbn in Hi.
        -- inversion Hi; subst. exact Hne.
        -- eapply Hno, Hi.
      * intros k j Hk. destruct (decide (key d = k)) as [<-|Hne].
        -- right. exists 0%nat, d. rewrite Hm in Hk. inversion Hk; subst.
           split; reflexivity.
        -- destruct (Hown k j) as [Hk'|(i & d' & Hi & Hd')].
           ++ rewrite lookup_insert_ne by exact Hne. exact Hk.
           ++ left. exact Hk'.
           ++ right. exists (S i), d'. split; [exact Hi | exact Hd'].
    + destruct (key_data rest m) as [[m2 up2] en2] eqn:Hrest.
      inversion H; subst. apply IH in Hrest as (Hsl & Hone & Hend & Hown).
      split; [|split; [|split]].
      * intros [|i] j d' Hi; cbn in Hi; [discriminate | eapply Hsl, Hi].
      * intros [|i1] [|i2] j1 j2 d1 d2 H1 H2 E; cbn in H1, H2;
          try discriminate. f_equal. eapply Hone; eassumption.
      * intros k j Hk. destruct (Hend k j Hk) as [Hk2 Hno].
        split; [exact Hk2|].
        intros [|i] j' d' Hi; cbn in Hi; [discriminate | eapply Hno, Hi].
      * intros k j Hk. destruct (Hown k j Hk) as [Hk'|(i & d' & Hi & Hd')].
        -- left. exact Hk'.
        -- right. exists (S i), d'. split; [exact Hi | exact Hd'].
    + destruct (key_data rest m) as [[m2 up2] en2] eqn:Hrest.
      inversion H; subst. apply IH in Hrest as (Hsl & Hone & Hend & Hown).
      split; [|split; [|split]].
      * intros [|i] j d' Hi; cbn in Hi; [discriminate | eapply Hsl, Hi].
      * intros [|i1] [|i2] j1 j2 d1 d2 H1 H2 E; cbn in H1, H2;
          try discriminate. f_equal. eapply Hone; eassumption.
      * intros k j Hk. destruct (Hend k j Hk) as [Hk2 Hno].
        split; [exact Hk2|].
        intros [|i] j' d' Hi; cbn in Hi; [discriminate | eapply Hno, Hi].
      * intros k j Hk. destruct (Hown k j Hk) as [Hk'|(i & d' & Hi & Hd')].
        -- left. exact Hk'.
        -- right. exists (S i), d'. split; [exact Hi | exact Hd'].
Qed.

(** A slot of the third loop. *)
Lemma unbound_lookup (group : list Node.t) :
  forall (i : nat) (m : gmap string (option nat)) ex p node e,
    group !! p = Some node -> ex !! p = Some e ->
    unbound i group m ex !! p
    = Some (if decide (m !! key node = Some (Some (i + p)))
            then Some (i + p, node) else e).
Proof.
  induction group as [|g rest IH]; intros i m ex p node e Hp He.
  - rewrite lookup_nil in Hp. discriminate.
  - destruct ex as [|e0 ex']; [rewrite lookup_nil in He; discriminate|].
    destruct p as [|p]; cbn in Hp, He; cbn [unbound].
    + inversion Hp; inversion He; subst. rewrite Nat.add_0_r. reflexivity.
    + change ((_ :: unbound (S i) rest m ex') !! S p)
        with (unbound (S i) rest m ex' !! p).
      rewrite (IH (S i) m ex' p node e Hp He).
      replace (S i + p) with (i + S p) by lia. reflexivity.
Qed.

(** Both sides of a slot of the second loop. *)
Lemma key_data_either (data : list Node.t) :
  forall (m m' : gmap string (option nat)) up en,
    key_data data m = (m', up, en) ->
    forall i d, data !! i = Some d ->
      (exists j, up !! i = Some (Some (j, d)) /\ en !! i = Some None) \/
      (up !! i = Some None /\ en !! i = Some (Some d)).
Proof.
  induction data as [|d0 rest IH]; intros m m' up en H i d Hi; cbn [key_data] in H.
  - rewrite lookup_nil in Hi. discriminate.
  - destruct (m !! key d0) as [[node|]|] eqn:Hm.
    + destruct (key_data rest (<[key d0:=None]> m)) as [[m2 up2] en2] eqn:Hrest.
      inversion H; subst. destruct i as [|i]; cbn in Hi |- *.
      * inversion Hi; subst. left. exists node. split; reflexivity.
      * eapply IH; eassumption.
    + destruct (key_data rest m) as [[m2 up2] en2] eqn:Hrest.
      inversion H; subst. destruct i as [|i]; cbn in Hi |- *.
      * inversion Hi; subst. right. split; reflexivity.
      * eapply IH; eassumption.
    + destruct (key_data rest m) as [[m2 up2] en2] eqn:Hrest.
      inversion H; subst. destruct i as [|i]; cbn in Hi |- *.
      * inversion Hi; subst. right. split; reflexivity.
      * eapply IH; eassumption.
Qed.

Lemma bindKey_either (group data : list Node.t) (i : nat) (d : Node.t) :
  data !! i = Some d ->
  (exists j, update (bindKey group data) !! i = Some (Some (j, d)) /\
             enter (bindKey group data) !! i = Some None) \/
  (update (bindKey group data) !! i = Some None /\
   enter (bindKey group data) !! i = Some (Some d)).
Proof.
  intros Hi. unfold bindKey.
  destruct (key_nodes 0 group ∅) as [m1 ex1] eqn:H1.
  destruct (key_data data m1) as [[m2 up] en] eqn:H2.
  cbn [update enter]. eapply key_data_either; eassumption.
Qed.

(** X1.  The keyed join gives every node of the new generation exactly
    one slot: at the node's own position either [update] carries it, bound
    to an element that was on screen, and [enter] is empty there, or
    [enter] carries it and [update] is empty there. *)
Theorem join_places_every_node (group data : list Node.t) (i : nat)
    (d : Node.t) :
  data !! i = Some d ->
  (exists j, update (bindKey group data) !! i = Some (Some (j, d)) /\
             enter (bindKey group data) !! i = Some None) \/
  (update (bindKey group data) !! i = Some None /\
   enter (bindKey group data) !! i = Some (Some d)).
Proof. apply bindKey_either. Qed.

Lemma bindKey_update_bound (group data : list Node.t) (i j : nat)
    (d : Node.t) :
  update (bindKey group data) !! i = Some (Some (j, d)) ->
  data !! i = Some d /\
  exists node, group !! j = Some node /\ key node = key d /\
               exit (bindKey group data) !! j = Some None.
Proof.
  intros Hup.
  pose proof (proj1 (bindKey_slots group data) i j d Hup) as Hd.
  split; [exact Hd|]. revert Hup. unfold bindKey.
  destruct (key_nodes 0 group ∅) as [m1 ex1] eqn:H1.
  destruct (key_data data m1) as [[m2 up] en] eqn:H2.
  cbn [update exit]. intros Hup.
  apply key_nodes_owners in H1 as (_ & _ & Hsrc).
  apply key_data_owners in H2 as (Hsl & _ & Hend & _).
  apply Hsl in Hup as Hm1.
  destruct (Hsrc _ _ Hm1) as [Hempty|(p & node & -> & Hp & Hkey & Hex)].
  { rewrite lookup_empty in Hempty. discriminate. }
  change (0 + p) with p in *.
  exists node. split; [exact Hp|]. split; [exact Hkey|].
  rewrite (unbound_lookup group 0 m2 ex1 p node None Hp Hex).
  destruct (decide _) as [Hown|]; [|reflexivity].
  exfalso. rewrite Hkey in Hown. apply Hend in Hown as [_ Hno].
  apply (Hno i _ d Hup). reflexivity.
Qed.

(** X2.  A slot of [update] joins a node with an element that was on
    screen under the same key, at the node's position among the new
    nodes, and that element is not in [exit]. *)
Theorem join_binds_by_key (group data : list Node.t) (i j : nat) (d : Node.t) :
  update (bindKey group data) !! i = Some (Some (j, d)) ->
  data !! i = Some d /\
  exists node, group !! j = Some node /\ key node = key d /\
               exit (bindKey group data) !! j = Some None.
Proof. apply bindKey_update_bound. Qed.

(** X3.  An element that was on screen either exits, and then no node is
    bound to it, or stays out of [exit], and then exactly one node of the
    new generation is bound to it, one with the element's key.  No
    uniqueness of keys is assumed. *)
Theorem join_keeps_or_exits (group data : list Node.t) (p : nat)
    (node : Node.t) :
  group !! p = Some node ->
  (exit (bindKey group data) !! p = Some (Some (p, node)) /\
   forall i d, update (bindKey group data) !! i <> Some (Some (p, d))) \/
  (exit (bindKey group data) !! p = Some None /\
   exists i d, update (bindKey group data) !! i = Some (Some (p, d)) /\
               key d = key node /\
               forall i' d', update (bindKey group data) !! i'
                             = Some (Some (p, d')) -> i' = i).
Proof.
  intros Hp.
  pose proof (bindKey_update_bound group data) as Hbind. revert Hbind.
  unfold bindKey.
  destruct (key_nodes 0 group ∅) as [m1 ex1] eqn:H1.
  destruct (key_data data m1) as [[m2 up] en] eqn:H2.
  cbn [update exit]. intros Hbind.
  apply key_nodes_owners in H1 as (_ & Hown & Hsrc).
  apply key_data_owners in H2 as (Hsl & Hone & Hend & Hrel).
  destruct (Hown p node Hp) as [[Hex Hm1]|Hex]; change (0 + p) with p in *.
  - destruct (Hrel _ _ Hm1) as [Hm2|(i & d & Hi & Hkey)].
    + left. rewrite (unbound_lookup group 0 m2 ex1 p node None Hp Hex).
      rewrite decide_True by exact Hm2. split; [reflexivity|].
      intros i d Hi. apply Hend in Hm2 as [_ Hno].
      destruct (Hbind i p d Hi) as (_ & node' & Hp' & Hkey' & _).
      rewrite Hp in Hp'. inversion Hp'; subst.
      apply (Hno i _ d Hi). symmetry. exact Hkey'.
    + right. destruct (Hbind i p d Hi) as (_ & node' & Hp' & _ & Hnone).
      split; [exact Hnone|]. exists i, d. split; [exact Hi|].
      split; [exact Hkey|].
      intros i' d' Hi'. eapply Hone; [exact Hi' | exact Hi |].
      destruct (Hbind i' p d' Hi') as (_ & node'' & Hp'' & Hkey'' & _).
      rewrite Hp in Hp''. inversion Hp''; subst. congruence.
  - left. rewrite (unbound_lookup group 0 m2 ex1 p node _ Hp Hex).
    split; [destruct (decide _); reflexivity|].
    intros i d Hi.
    destruct (Hbind i p d Hi) as (_ & node' & Hp' & _ & Hnone).
    rewrite (unbound_lookup group 0 m2 ex1 p node _ Hp Hex) in Hnone.
    destruct (decide _); discriminate.
Qed.
(** An element whose key no new node bears is in [exit], at its own
    position. *)
Lemma bindKey_exit_unmatched (group data : list Node.t) (p : nat)
    (node : Node.t) :
  group !! p = Some node -> key node ∉ key <$> data ->
  exit (bindKey group data) !! p = Some (Some (p, node)).
Proof.
  intros Hp Hnew.
  pose proof (bindKey_slots group data) as (Hdata & _ & _). revert Hdata.
  unfold bindKey.
  destruct (key_nodes 0 group ∅) as [m1 ex1] eqn:H1.
  destruct (key_data data m1) as [[m2 up] en] eqn:H2.
  cbn [update exit]. intros Hdata.
  apply key_nodes_owners in H1 as (_ & Hown & _).
  apply key_data_owners in H2 as (_ & _ & _ & Hrel).
  destruct (Hown p node Hp) as [[Hex Hm1]|Hex]; change (0 + p) with p in *.
  - rewrite (unbound_lookup group 0 m2 ex1 p node None Hp Hex).
    destruct (Hrel _ _ Hm1) as [Hm2|(i & d & Hi & Hkey)].
    + rewrite decide_True by exact Hm2. reflexivity.
    + exfalso. apply Hnew. rewrite <- Hkey.
      apply list_elem_of_fmap. exists d. split; [reflexivity|].
      eapply list_elem_of_lookup_2, Hdata, Hi.
  - rewrite (unbound_lookup group 0 m2 ex1 p node _ Hp Hex).
    destruct (decide _); reflexivity.
Qed.

End JoinMore.

(** ** A cycle as a whole *)

Lemma mapM_Ok_all {A B : Type} (f : A -> result B) (l : list A) (l' : list B) :
  mapM f l = Ok l' ->
  forall a, a ∈ l -> exists b, f a = Ok b /\ b ∈ l'.
Proof.
  revert l'. induction l as [|a0 l IH]; intros l' H a Ha; cbn in H.
  - inversion Ha.
  - destruct (f a0) as [b0|] eqn:Hfa; cbn in H; [|discriminate].
    destruct (mapM f l) as [l0|] eqn:Hl; cbn in H; [|discriminate].
    inversion H; subst. apply elem_of_cons in Ha as [->|Ha].
    + exists b0. split; [exact Hfa | left].
    + destruct (IH l0 eq_refl a Ha) as (b & Hb & Hin).
      exists b. split; [exact Hb | right; exact Hin].
Qed.

Section JoinUnique.
Import Join.

(** With unique keys on both sides, a placeholder is made only for a key
    no element bears and an element exits only when no node bears its
    key. *)
Lemma bindKey_nodup_slots (group data : list Node.t) :
  NoDup (key <$> group) -> NoDup (key <$> data) ->
  (forall i d, enter (bindKey group data) !! i = Some (Some d) ->
               key d ∉ key <$> group) /\
  (forall p j node, exit (bindKey group data) !! p = Some (Some (j, node)) ->
                    key node ∉ key <$> data).
Proof.
  intros Hg Hd. pose proof (bindKey_slots group data) as (_ & _ & Hxs).
  revert Hxs. unfold bindKey.
  destruct (key_nodes 0 group ∅) as [m1 ex1] eqn:H1.
  apply key_nodes_nodup in H1 as (Hex & Hown & Hout);
    [|exact Hg|intros; apply lookup_empty].
  destruct (key_data data m1) as [[m2 up] en] eqn:H2.
  apply key_data_nodup in H2 as (Hup & Hen & Hm2); [|exact Hd].
  cbn [enter exit]. intros Hxs. split.
  - intros i d Hi Hin. subst en. rewrite list_lookup_fmap in Hi.
    destruct (data !! i) as [d'|] eqn:Hdi; cbn in Hi; [|discriminate].
    apply list_elem_of_fmap in Hin as (node & Hk & Hnode).
    apply list_elem_of_lookup in Hnode as [j Hj].
    unfold placed in Hi. destruct (m1 !! key d') as [[o|]|] eqn:Hm; cbn in Hi;
      try discriminate; inversion Hi; subst;
      rewrite Hk, (Hown j node Hj) in Hm; discriminate.
  - intros p j node Hp Hin. pose proof (Hxs p j node Hp) as Hgp.
    assert (Hex1 : ex1 !! p = Some None).
    { subst ex1. apply lookup_replicate. split; [reflexivity|].
      eapply lookup_lt_Some, Hgp. }
    rewrite (unbound_lookup group 0 m2 ex1 p node None Hgp Hex1) in Hp.
    destruct (decide _) as [Hm|]; [|discriminate].
    rewrite Hm2 in Hm. rewrite decide_True in Hm by exact Hin.
    rewrite (Hown p node Hgp) in Hm. discriminate.
Qed.
End JoinUnique.

Section UpdateMore.
Import Chart.
Local Open Scope Q_scope.

Variable Math_atan2 : Q -> Q -> Q.
Variable Math_cos : Q -> Q.
Variable Math_sin : Q -> Q.
Variable measure : Tooltip.t -> Measures.t.
Variable fade : option string -> string.
Variable tooltipFunc_false : Node.t -> option string -> bool.

Local Abbreviation update :=
  (update Math_atan2 Math_cos Math_sin measure fade tooltipFunc_false).
Local Abbreviation adjustTooltipPosition := (adjustTooltipPosition measure).
Local Abbreviation _updateTooltip :=
  (_updateTooltip measure fade tooltipFunc_false).
Local Abbreviation circle_exit := (circle_exit Math_atan2 Math_cos Math_sin).
Local Abbreviation label_exit := (label_exit Math_atan2 Math_cos Math_sin).
Local Abbreviation cycle_chart := (cycle_chart measure).

(** One cycle, slot by slot: the scales it builds, the chart its
    callbacks read, and for both selections where each entry of the plan
    comes from and that every slot of [update] and [enter] has its
    entry. *)
Lemma update_ops (c c' : t) (p prevProps : Props.t)
    (nodes circleElements labelElements : list Node.t) (pl : plan) :
  update c p prevProps nodes circleElements labelElements = Ok (c', Some pl) ->
  exists fill text,
    Quantize.scaleQuantize (Props.domain p) (colorRange p) = Some fill /\
    Quantize.scaleQuantize (Props.domain p) (textColorRange p) = Some text /\
    let c1 := cycle_chart c p fill text nodes circleElements labelElements in
    let cj := Join.bindKey circleElements nodes in
    let lj := Join.bindKey labelElements nodes in
    same_chart c1 c' /\
    (forall s, s ∈ circle_ops pl ->
       (exists i j d, Join.update cj !! i = Some (Some (j, d)) /\
                      circle_update c1 (i, (j, d)) = Ok s) \/
       (exists i d, Join.enter cj !! i = Some (Some d) /\
                    Node.children d = false /\ circle_enter c1 (i, d) = Ok s) \/
       (exists i j d, Join.exit cj !! i = Some (Some (j, d)) /\
                      s = circle_exit c1 (i, (j, d)))) /\
    (forall s, s ∈ label_ops pl ->
       (exists i j d, Join.update lj !! i = Some (Some (j, d)) /\
                      label_update c1 (i, (j, d)) = Ok s) \/
       (exists i d, Join.enter lj !! i = Some (Some d) /\
                    label_enter c1 (i, d) = Ok s) \/
       (exists i j d, Join.exit lj !! i = Some (Some (j, d)) /\
                      s = label_exit c1 (i, (j, d)))) /\
    (forall i j d, Join.update lj !! i = Some (Some (j, d)) ->
       exists s, label_update c1 (i, (j, d)) = Ok s /\ s ∈ label_ops pl) /\
    (forall i d, Join.enter lj !! i = Some (Some d) ->
       exists s, label_enter c1 (i, d) = Ok s /\ s ∈ label_ops pl).
Proof.
  unfold Chart.update. intros H.
  destruct (Props.data p) as [ref|]; [|discriminate].
  destruct (Quantize.scaleQuantize _ (colorRange p)) as [fill|]; [|discriminate].
  destruct (Quantize.scaleQuantize _ (textColorRange p)) as [text|];
    [|discriminate].
  exists fill, text. split; [reflexivity|]. split; [reflexivity|].
  fold (cycle_chart c p fill text nodes circleElements labelElements) in H.
  set (c1 := cycle_chart c p fill text nodes circleElements labelElements) in *.
  cbv zeta.
  assert (Hsome : forall i d,
             Join.enter (Join.bindKey labelElements nodes) !! i = Some (Some d) ->
             (0 <? length nodes)%nat = true).
  { intros i d Hi.
    apply (proj1 (proj2 (bindKey_slots labelElements nodes))) in Hi.
    apply lookup_lt_Some in Hi. apply Nat.ltb_lt. lia. }
  set (some := (0 <? length nodes)%nat) in *. clearbody some.
  destruct (mapM (circle_update c1) _) as [cu|] eqn:Ecu; cbn in H; [|discriminate].
  destruct (mapM (label_update c1) _) as [lu|] eqn:Elu; cbn in H; [|discriminate].
  destruct (if some then mapM (circle_enter c1) _ else _)
    as [ce|] eqn:Ece; cbn in H; [|discriminate].
  destruct (if some then mapM (label_enter c1) _ else _)
    as [le|] eqn:Ele; cbn in H; [|discriminate].
  destruct (_updateTooltip c1 _ _ _ _) as [c2|] eqn:Eut; cbn in H; [|discriminate].
  destruct (adjustTooltipPosition c2) as [c3|] eqn:Eat; cbn in H; [|discriminate].
  inversion H; subst c3 pl; clear H.
  split; [|split; [|split; [|split]]].
  - eapply same_chart_trans.
    + eapply _updateTooltip_same, Eut.
    + eapply adjustTooltipPosition_same, Eat.
  - intros s Hs. cbn [circle_ops] in Hs.
    apply elem_of_app in Hs as [Hs|Hs]; [|apply elem_of_app in Hs as [Hs|Hs]].
    + left. destruct (mapM_Ok _ _ _ Ecu s Hs) as ([i [j d]] & Hin & Hf).
      apply indexed_lookup in Hin. exists i, j, d. split; assumption.
    + right; left. destruct some.
      * destruct (mapM_Ok _ _ _ Ece s Hs) as ([i d] & Hin & Hf).
        apply list_elem_of_In, filter_In in Hin as [Hin Hleaf].
        apply list_elem_of_In, indexed_lookup in Hin. cbn in Hleaf.
        exists i, d. split; [exact Hin|]. split; [|exact Hf].
        destruct (Node.children d); [discriminate | reflexivity].
      * inversion Ece; subst. inversion Hs.
    + right; right. apply list_elem_of_fmap in Hs as ([i [j d]] & -> & Hin).
      apply indexed_lookup in Hin. exists i, j, d. split; [exact Hin|reflexivity].
  - intros s Hs. cbn [label_ops] in Hs.
    apply elem_of_app in Hs as [Hs|Hs]; [|apply elem_of_app in Hs as [Hs|Hs]].
    + left. destruct (mapM_Ok _ _ _ Elu s Hs) as ([i [j d]] & Hin & Hf).
      apply indexed_lookup in Hin. exists i, j, d. split; assumption.
    + right; left. destruct some.
      * destruct (mapM_Ok _ _ _ Ele s Hs) as ([i d] & Hin & Hf).
        apply indexed_lookup in Hin. exists i, d. split; assumption.
      * inversion Ele; subst. inversion Hs.
    + right; right. apply list_elem_of_fmap in Hs as ([i [j d]] & -> & Hin).
      apply indexed_lookup in Hin. exists i, j, d. split; [exact Hin|reflexivity].
  - intros i j d Hi. apply indexed_lookup in Hi.
    destruct (mapM_Ok_all _ _ _ Elu _ Hi) as (s & Hf & Hs).
    exists s. split; [exact Hf|]. cbn [label_ops]. apply elem_of_app. left. exact Hs.
  - intros i d Hi. rewrite (Hsome i d Hi) in Ele. apply indexed_lookup in Hi.
    destruct (mapM_Ok_all _ _ _ Ele _ Hi) as (s & Hf & Hs).
    exists s. split; [exact Hf|]. cbn [label_ops].
    apply elem_of_app. right. apply elem_of_app. left. exact Hs.
Qed.

Ltac scheduled_of H :=
  unfold circle_update, label_update, circle_enter, label_enter in H;
  match type of H with
  | context [getCircleColor ?c ?d] => destruct (getCircleColor c d); cbn in H
  | context [getLabelColor ?c ?d] => destruct (getLabelColor c d); cbn in H
  end;
  [inversion H; subst; clear H | discriminate].

(** X4.  A cycle that returns a plan schedules, for every node of the new
    generation, a label operation at the node's position that carries the
    node and is an update or an enter. *)
Theorem every_node_labelled (c c' : t) (p prevProps : Props.t)
    (nodes circleElements labelElements : list Node.t) (pl : plan)
    (i : nat) (d : Node.t) :
  update c p prevProps nodes circleElements labelElements = Ok (c', Some pl) ->
  nodes !! i = Some d ->
  exists s : Scheduled.t,
    s ∈ label_ops pl /\
    Scheduled.index s = i /\ Scheduled.datum_of s = d /\
    (Scheduled.phase_of s = Updating \/ Scheduled.phase_of s = Entering).
Proof.
  intros H Hi.
  apply update_ops in H as (fill & text & _ & _ & _ & _ & _ & Hup & Hen).
  cbv zeta in *.
  destruct (bindKey_either labelElements nodes i d Hi) as [(j & Hu & _)|[_ He]].
  - destruct (Hup i j d Hu) as (s & Hf & Hs). exists s. split; [exact Hs|].
    scheduled_of Hf. cbn. auto.
  - destruct (Hen i d He) as (s & Hf & Hs). exists s. split; [exact Hs|].
    scheduled_of Hf. cbn. auto.
Qed.

(** X5.  A circle is only ever created for a leaf: an entering circle
    operation of a cycle carries a node without children, the one at the
    operation's index among the new nodes. *)
Theorem circles_enter_for_leaves (c c' : t) (p prevProps : Props.t)
    (nodes circleElements labelElements : list Node.t) (pl : plan)
    (s : Scheduled.t) :
  update c p prevProps nodes circleElements labelElements = Ok (c', Some pl) ->
  s ∈ circle_ops pl -> Scheduled.phase_of s = Entering ->
  Node.children (Scheduled.datum_of s) = false /\
  nodes !! Scheduled.index s = Some (Scheduled.datum_of s).
Proof.
  intros H Hs Hph.
  apply update_inv in H as (fill & text & _ & Hc & _). cbv zeta in Hc.
  destruct (Hc s Hs) as [(i & j & d & Hn & Hf)|[(i & d & Hn & Hleaf & Hf)|
                           (i & j & d & Hn & ->)]].
  - scheduled_of Hf. discriminate.
  - scheduled_of Hf. cbn. auto.
  - discriminate.
Qed.

Lemma find_Some_exists {A : Type} (f : A -> bool) (l : list A) (x : A) :
  In x l -> f x = true -> exists y, List.find f l = Some y.
Proof.
  intros Hx Hf. destruct (List.find f l) as [y|] eqn:E; [eauto|].
  rewrite (find_none f l E x Hx) in Hf. discriminate.
Qed.

Lemma bindKey_data_all (group data : list Node.t) (d : Node.t) :
  d ∈ data ->
  d ∈ Join.update_data (Join.bindKey group data)
      ++ Join.enter_data (Join.bindKey group data).
Proof.
  intros Hd. apply list_elem_of_lookup in Hd as [i Hi].
  unfold Join.update_data, Join.enter_data.
  rewrite elem_of_app, !list_elem_of_omap.
  destruct (bindKey_either group data i d Hi) as [(j & Hu & _)|[_ He]].
  - left. exists (Some (j, d)). split; [|reflexivity].
    eapply list_elem_of_lookup_2, Hu.
  - right. exists (Some d). split; [|reflexivity].
    eapply list_elem_of_lookup_2, He.
Qed.

(** X6.  After a cycle that returns a plan, [findNodeByDataId] on the
    identity of a node of the generation just rendered succeeds, with a
    node of that generation which has this identity. *)
Theorem rendered_node_is_found (c c' : t) (p prevProps : Props.t)
    (nodes circleElements labelElements : list Node.t) (pl : plan)
    (d : Node.t) (id : string) :
  update c p prevProps nodes circleElements labelElements = Ok (c', Some pl) ->
  d ∈ nodes -> _id (Node.data d) = Some id ->
  exists d' : Node.t,
    findNodeByDataId c' id = Ok (Some d') /\
    d' ∈ nodes /\ _id (Node.data d') = Some id.
Proof.
  intros H Hd Hid.
  apply update_inv in H as (fill & text & Hsame & _). cbv zeta in Hsame.
  destruct (same_chart_fields _ _ Hsame) as (_ & _ & _ & _ & _ & _ & Hcs & _).
  destruct (cycle_chart_fields measure c p fill text nodes circleElements
              labelElements) as (_ & _ & _ & _ & _ & _ & Hc1).
  unfold findNodeByDataId. rewrite Hcs, Hc1.
  destruct (find_Some_exists
              (fun d0 => bool_decide (_id (Node.data d0) = Some id))
              (Join.update_data (Join.bindKey circleElements nodes)
               ++ Join.enter_data (Join.bindKey circleElements nodes)) d)
    as [d' Hfind].
  - apply list_elem_of_In, bindKey_data_all, Hd.
  - apply bool_decide_eq_true. exact Hid.
  - exists d'. rewrite Hfind. split; [reflexivity|].
    apply find_some in Hfind as [Hin Hd'].
    split; [|apply bool_decide_eq_true in Hd'; exact Hd'].
    eapply bindKey_data. apply list_elem_of_In. exact Hin.
Qed.

(** X7.  When the elements on screen carry the keys of the new
    generation (a circle for each leaf, a label for each node, keys
    distinct), as when the resize handler renders the same data in a new
    layout, a cycle schedules updates only: nothing enters and nothing
    exits. *)
Theorem rerender_only_updates (c c' : t) (p prevProps : Props.t)
    (nodes circleElements labelElements : list Node.t) (pl : plan)
    (s : Scheduled.t) :
  NoDup (key <$> nodes) ->
  key <$> circleElements
  = key <$> filter (fun d => Node.children d = false) nodes ->
  key <$> labelElements = key <$> nodes ->
  update c p prevProps nodes circleElements labelElements
  = Ok (c', Some pl) ->
  s ∈ circle_ops pl ++ label_ops pl ->
  Scheduled.phase_of s = Updating.
Proof.
  intros Hnd Hck Hlk H Hs.
  assert (Hleaves : NoDup (key <$> circleElements)).
  { rewrite Hck. eapply sublist_NoDup; [exact Hnd|].
    apply fmap_sublist, sublist_filter. }
  assert (Hlabels : NoDup (key <$> labelElements))
    by (rewrite Hlk; exact Hnd).
  apply update_ops in H as (fill & text & _ & _ & _ & Hc & Hl & _).
  cbv zeta in *.
  destruct (bindKey_nodup_slots circleElements nodes Hleaves Hnd)
    as [Hcen Hcex].
  destruct (bindKey_nodup_slots labelElements nodes Hlabels Hnd)
    as [Hlen Hlex].
  destruct (bindKey_slots circleElements nodes) as (_ & Hcs & Hcx).
  destruct (bindKey_slots labelElements nodes) as (_ & Hls & Hlx).
  apply elem_of_app in Hs as [Hs|Hs].
  - destruct (Hc s Hs) as [(i & j & d & Hu & Hf)|[(i & d & He & Hleaf & Hf)|
                             (i & j & d & Hx & ->)]].
    + scheduled_of Hf. reflexivity.
    + exfalso. apply (Hcen i d He). rewrite Hck.
      apply list_elem_of_fmap. exists d.
      split; [reflexivity|]. apply list_elem_of_filter. split; [exact Hleaf|].
      eapply list_elem_of_lookup_2, Hcs, He.
    + exfalso. apply (Hcex i j d Hx).
      assert (Hin : key d ∈ key <$> circleElements).
      { apply list_elem_of_fmap. exists d. split; [reflexivity|].
        eapply list_elem_of_lookup_2, Hcx, Hx. }
      rewrite Hck in Hin. apply list_elem_of_fmap in Hin as (d' & Hk & Hd').
      apply list_elem_of_filter in Hd' as [_ Hd'].
      apply list_elem_of_fmap. exists d'. split; assumption.
  - destruct (Hl s Hs) as [(i & j & d & Hu & Hf)|[(i & d & He & Hf)|
                             (i & j & d & Hx & ->)]].
    + scheduled_of Hf. reflexivity.
    + exfalso. apply (Hlen i d He). rewrite Hlk.
      apply list_elem_of_fmap. exists d.
      split; [reflexivity|]. eapply list_elem_of_lookup_2, Hls, He.
    + exfalso. apply (Hlex i j d Hx). rewrite <- Hlk.
      apply list_elem_of_fmap. exists d.
      split; [reflexivity|]. eapply list_elem_of_lookup_2, Hlx, Hx.
Qed.

(** X8.  The fill scale and the text scale a cycle builds have the
    legend's colours and its text colours as ranges, both as long as the
    legend, and they send every value to the same bucket. *)
Theorem fill_and_text_share_bucket (c c' : t) (p prevProps : Props.t)
    (nodes circleElements labelElements : list Node.t) (pl : plan) :
  update c p prevProps nodes circleElements labelElements = Ok (c', Some pl) ->
  exists fill text : Quantize.scale,
    color c' = Some fill /\ textColor c' = Some text /\
    Quantize.range fill = colorRange p /\
    Quantize.range text = textColorRange p /\
    length (Quantize.range fill) = length (Props.colorLegend p) /\
    length (Quantize.range text) = length (Props.colorLegend p) /\
    forall v : Q, Quantize.bucket fill v = Quantize.bucket text v.
Proof.
  intros H.
  apply update_ops in H as (fill & text & Hf & Ht & Hsame & _).
  cbv zeta in Hsame. exists fill, text.
  assert (Hc' : color c' = Some fill /\ textColor c' = Some text).
  { unfold same_chart in Hsame. rewrite Hsame.
    unfold Chart.cycle_chart, configureTooltip.
    destruct (Props.tooltip p); [destruct (Props.mode p)|]; split; reflexivity. }
  destruct Hc' as [Hcf Hct]. split; [exact Hcf|]. split; [exact Hct|].
  unfold Quantize.scaleQuantize in Hf, Ht.
  assert (Hlen : length (colorRange p) = length (textColorRange p)).
  { unfold colorRange, textColorRange. rewrite !length_map. reflexivity. }
  destruct (colorRange p) as [|c0 rest] eqn:Er; [discriminate|].
  destruct (textColorRange p) as [|t0 trest] eqn:Et; [discriminate|].
  inversion Hf; inversion Ht; subst fill text. cbn [Quantize.range].
  split; [reflexivity|]. split; [reflexivity|].
  split; [rewrite <- Er; unfold colorRange; apply length_map|].
  split; [rewrite <- Et; unfold textColorRange; apply length_map|].
  intros v. unfold Quantize.bucket. cbn [Quantize.domain Quantize.n].
  cbn [length] in Hlen. injection Hlen as Hlen. rewrite Hlen. reflexivity.
Qed.

(** X9.  What the constructor read from its props (selected colours,
    diameters, font size factor, duration, delay) is not read again: a
    cycle leaves these fields as they are, whatever its props say. *)
Theorem update_keeps_configuration (c c' : t) (p prevProps : Props.t)
    (nodes circleElements labelElements : list Node.t) (o : option plan) :
  update c p prevProps nodes circleElements labelElements = Ok (c', o) ->
  selectedColor c' = selectedColor c /\
  selectedTextColor c' = selectedTextColor c /\
  smallDiameter c' = smallDiameter c /\
  mediumDiameter c' = mediumDiameter c /\
  fontSizeFactor c' = fontSizeFactor c /\
  duration c' = duration c /\ delay c' = delay c.
Proof.
  intros H.
  assert (Hsame : exists c1, same_chart c1 c' /\
            selectedColor c1 = selectedColor c /\
            selectedTextColor c1 = selectedTextColor c /\
            smallDiameter c1 = smallDiameter c /\
            mediumDiameter c1 = mediumDiameter c /\
            fontSizeFactor c1 = fontSizeFactor c /\
            duration c1 = duration c /\ delay c1 = delay c).
  { destruct o as [pl|].
    - apply update_inv in H as (fill & text & Hsame & _). cbv zeta in Hsame.
      eexists. split; [exact Hsame|].
      unfold Chart.cycle_chart, configureTooltip.
      destruct (Props.tooltip p); [destruct (Props.mode p)|]; repeat split.
    - unfold Chart.update in H.
      destruct (Props.data p).
      + destruct (Quantize.scaleQuantize _ (colorRange p)); [|discriminate].
        destruct (Quantize.scaleQuantize _ (textColorRange p)); [|discriminate].
        set (some := (0 <? length nodes)%nat) in *. clearbody some.
        repeat match type of H with
        | context [mapM ?f ?l] => destruct (mapM f l); cbn in H
        | context [if some then _ else _] => destruct some
        | context [_updateTooltip ?a ?b ?c ?d ?e] =>
            destruct (_updateTooltip a b c d e); cbn in H
        | context [adjustTooltipPosition ?a] =>
            destruct (adjustTooltipPosition a); cbn in H
        end; discriminate.
      + inversion H; subst. eexists. split; [apply same_chart_refl|].
        unfold configureTooltip.
        destruct (Props.tooltip p); [destruct (Props.mode p)|]; repeat split. }
  destruct Hsame as (c1 & Hsame & H1 & H2 & H3 & H4 & H5 & H6 & H7).
  unfold same_chart in Hsame. rewrite Hsame. cbn. auto 10.
Qed.

(** X10.  A cycle whose props hold no data returns without a plan and
    without throwing; it records the props and leaves scales, selections
    and tooltip as they were. *)
Theorem update_without_data (c : t) (p prevProps : Props.t)
    (nodes circleElements labelElements : list Node.t) :
  Props.data p = None ->
  exists c' : t,
    update c p prevProps nodes circleElements labelElements = Ok (c', None) /\
    props c' = p /\
    color c' = color c /\ textColor c' = textColor c /\
    circles c' = circles c /\ labels c' = labels c /\
    tooltip c' = tooltip c.
Proof.
  intros Hdata. unfold Chart.update. rewrite Hdata.
  eexists. split; [reflexivity|]. unfold configureTooltip.
  destruct (Props.tooltip p); [destruct (Props.mode p)|]; repeat split.
Qed.

(** Every slot of the two exit selections has its entry in the plan. *)
Lemma update_exits (c c' : t) (p prevProps : Props.t)
    (nodes circleElements labelElements : list Node.t) (pl : plan)
    (fill text : Quantize.scale) :
  update c p prevProps nodes circleElements labelElements = Ok (c', Some pl) ->
  Quantize.scaleQuantize (Props.domain p) (colorRange p) = Some fill ->
  Quantize.scaleQuantize (Props.domain p) (textColorRange p) = Some text ->
  let c1 := cycle_chart c p fill text nodes circleElements labelElements in
  (forall i j d,
      Join.exit (Join.bindKey circleElements nodes) !! i = Some (Some (j, d)) ->
      circle_exit c1 (i, (j, d)) ∈ circle_ops pl) /\
  (forall i j d,
      Join.exit (Join.bindKey labelElements nodes) !! i = Some (Some (j, d)) ->
      label_exit c1 (i, (j, d)) ∈ label_ops pl).
Proof.
  unfold Chart.update. intros H Ef Et.
  destruct (Props.data p) as [ref|]; [|discriminate].
  rewrite Ef, Et in H.
  fold (cycle_chart c p fill text nodes circleElements labelElements) in H.
  set (c1 := cycle_chart c p fill text nodes circleElements labelElements) in *.
  cbv zeta.
  set (some := (0 <? length nodes)%nat) in *. clearbody some.
  destruct (mapM (circle_update c1) _) as [cu|] eqn:Ecu; cbn in H; [|discriminate].
  destruct (mapM (label_update c1) _) as [lu|] eqn:Elu; cbn in H; [|discriminate].
  destruct (if some then mapM (circle_enter c1) _ else _)
    as [ce|] eqn:Ece; cbn in H; [|discriminate].
  destruct (if some then mapM (label_enter c1) _ else _)
    as [le|] eqn:Ele; cbn in H; [|discriminate].
  destruct (_updateTooltip c1 _ _ _ _) as [c2|] eqn:Eut; cbn in H; [|discriminate].
  destruct (adjustTooltipPosition c2) as [c3|] eqn:Eat; cbn in H; [|discriminate].
  inversion H; subst c3 pl; clear H.
  split; intros i j d Hi; apply indexed_lookup in Hi;
    cbn [circle_ops label_ops];
    apply elem_of_app; right; apply elem_of_app; right;
    apply list_elem_of_fmap; exists (i, (j, d)); split;
    [reflexivity | exact Hi | reflexivity | exact Hi].
Qed.

(** C3.  An element of an exit selection, bound to a node last placed at
    [(x, y)], is sent to [destX = D * (1 + cos theta) / 2],
    [destY = D * (1 + sin theta) / 2] with
    [theta = atan2 (y - D/2) (x - D/2)] and [D] the side of the canvas,
    the smaller of the container's width and height; the circle's radius
    and the label's opacity (and width and height) go to 0, and the
    element is removed when the transition ends.  This is what every
    entry of the plan that exits does, every element of the two exit
    selections has such an entry, and an element whose key no new node
    bears is in the exit selection. *)
Theorem exit_trajectory (c c' : t) (p prevProps : Props.t)
    (nodes circleElements labelElements : list Node.t) (pl : plan) :
  update c p prevProps nodes circleElements labelElements = Ok (c', Some pl) ->
  let D := diameter c' in
  let theta := fun d : Node.t =>
    Math_atan2 (Node.y d - D / 2) (Node.x d - D / 2) in
  let destX := fun d => D * (1 + Math_cos (theta d)) / 2 in
  let destY := fun d => D * (1 + Math_sin (theta d)) / 2 in
  let circle_flight := fun d =>
    [(Attr "transform", VTranslate (destX d) (destY d));
     (Attr "r", VNum 0)] in
  let label_flight := fun d =>
    [(Style "top", VPx (destY d));
     (Style "left", VPx (destX d));
     (Style "opacity", VNum 0);
     (Style "width", VNum 0);
     (Style "height", VNum 0)] in
  let exits := fun (ops : list Scheduled.t) (flight : Node.t -> _)
                   (i : nat) (d : Node.t) =>
    exists s : Scheduled.t,
      s ∈ ops /\ Scheduled.phase_of s = Exiting /\
      Scheduled.index s = i /\ Scheduled.datum_of s = d /\
      Transition.tweens (Scheduled.transition s) = flight d /\
      Transition.remove (Scheduled.transition s) = true in
  D = Qmin (Measures.container_offsetWidth (measure (tooltip c)))
           (Measures.container_offsetHeight (measure (tooltip c))) /\
  (forall s : Scheduled.t,
      s ∈ circle_ops pl -> Scheduled.phase_of s = Exiting ->
      let d := Scheduled.datum_of s in
      circleElements !! Scheduled.index s = Some d /\
      Transition.tweens (Scheduled.transition s) = circle_flight d /\
      Transition.remove (Scheduled.transition s) = true) /\
  (forall s : Scheduled.t,
      s ∈ label_ops pl -> Scheduled.phase_of s = Exiting ->
      let d := Scheduled.datum_of s in
      labelElements !! Scheduled.index s = Some d /\
      Transition.tweens (Scheduled.transition s) = label_flight d /\
      Transition.remove (Scheduled.transition s) = true) /\
  (forall (i j : nat) (d : Node.t),
      Join.exit (Join.bindKey circleElements nodes) !! i = Some (Some (j, d)) ->
      exits (circle_ops pl) circle_flight i d) /\
  (forall (i j : nat) (d : Node.t),
      Join.exit (Join.bindKey labelElements nodes) !! i = Some (Some (j, d)) ->
      exits (label_ops pl) label_flight i d) /\
  (forall (i : nat) (d : Node.t),
      circleElements !! i = Some d -> key d ∉ key <$> nodes ->
      exits (circle_ops pl) circle_flight i d) /\
  (forall (i : nat) (d : Node.t),
      labelElements !! i = Some d -> key d ∉ key <$> nodes ->
      exits (label_ops pl) label_flight i d).
Proof.
  intros H. pose proof H as Hops.
  apply update_ops in Hops as (fill & text & Ef & Et & Hsame & Hc & Hl & _).
  destruct (update_exits _ _ _ _ _ _ _ _ fill text H Ef Et) as [Hcx Hlx].
  cbv zeta in *.
  destruct (same_chart_fields _ _ Hsame) as (_ & _ & _ & _ & HD & _).
  destruct (cycle_chart_fields measure c p fill text nodes circleElements
              labelElements) as (_ & _ & _ & _ & Hside & _).
  destruct (bindKey_slots circleElements nodes) as (_ & _ & Hcs).
  destruct (bindKey_slots labelElements nodes) as (_ & _ & Hls).
  rewrite HD.
  assert (Hcircle : forall (i j : nat) (d : Node.t),
             Join.exit (Join.bindKey circleElements nodes) !! i
             = Some (Some (j, d)) ->
             exists s : Scheduled.t,
               s ∈ circle_ops pl /\ Scheduled.phase_of s = Exiting /\
               Scheduled.index s = i /\ Scheduled.datum_of s = d /\
               Transition.tweens (Scheduled.transition s)
               = [(Attr "transform",
                   VTranslate
                     (destX Math_atan2 Math_cos
                        (Chart.cycle_chart measure c p fill text nodes
                           circleElements labelElements) d)
                     (destY Math_atan2 Math_sin
                        (Chart.cycle_chart measure c p fill text nodes
                           circleElements labelElements) d));
                  (Attr "r", VNum 0)] /\
               Transition.remove (Scheduled.transition s) = true).
  { intros i j d Hi. eexists. split; [exact (Hcx i j d Hi)|].
    repeat split. }
  assert (Hlabel : forall (i j : nat) (d : Node.t),
             Join.exit (Join.bindKey labelElements nodes) !! i
             = Some (Some (j, d)) ->
             exists s : Scheduled.t,
               s ∈ label_ops pl /\ Scheduled.phase_of s = Exiting /\
               Scheduled.index s = i /\ Scheduled.datum_of s = d /\
               Transition.tweens (Scheduled.transition s)
               = [(Style "top",
                   VPx (destY Math_atan2 Math_sin
                          (Chart.cycle_chart measure c p fill text nodes
                             circleElements labelElements) d));
                  (Style "left",
                   VPx (destX Math_atan2 Math_cos
                          (Chart.cycle_chart measure c p fill text nodes
                             circleElements labelElements) d));
                  (Style "opacity", VNum 0);
                  (Style "width", VNum 0);
                  (Style "height", VNum 0)] /\
               Transition.remove (Scheduled.transition s) = true).
  { intros i j d Hi. eexists. split; [exact (Hlx i j d Hi)|].
    repeat split. }
  split; [exact Hside|]. split; [|split; [|split; [|split; [|split]]]].
  - intros s Hs Hph.
    destruct (Hc s Hs) as [(i & j & d & Hn & Hf)|[(i & d & Hn & _ & Hf)|
                             (i & j & d & Hn & ->)]].
    + scheduled_of Hf. discriminate.
    + scheduled_of Hf. discriminate.
    + cbn. split; [exact (Hcs i j d Hn)|]. split; reflexivity.
  - intros s Hs Hph.
    destruct (Hl s Hs) as [(i & j & d & Hn & Hf)|[(i & d & Hn & Hf)|
                             (i & j & d & Hn & ->)]].
    + scheduled_of Hf. discriminate.
    + scheduled_of Hf. discriminate.
    + cbn. split; [exact (Hls i j d Hn)|]. split; reflexivity.
  - exact Hcircle.
  - exact Hlabel.
  - intros i d Hi Hnew.
    exact (Hcircle i i d (bindKey_exit_unmatched _ _ _ _ Hi Hnew)).
  - intros i d Hi Hnew.
    exact (Hlabel i i d (bindKey_exit_unmatched _ _ _ _ Hi Hnew)).
Qed.

End UpdateMore.

(** ** Scales, placement and the legacy variant *)

Section QuantizeMore.
Import Quantize.
Local Open Scope Q_scope.

Lemma bisect_loop_bounds (fuel : nat) :
  forall (a : list Q) (x : Q) (lo hi : nat),
    (lo <= hi)%nat -> (lo <= bisect_loop fuel a x lo hi <= hi)%nat.
Proof.
  induction fuel as [|fuel IH]; intros a x lo hi Hle; cbn [bisect_loop].
  - lia.
  - destruct (Nat.ltb_spec lo hi) as [Hlt|Hge]; [|lia].
    assert (Hmid : (lo <= (lo + hi) / 2 < hi)%nat).
    { split.
      - apply Nat.div_le_lower_bound; lia.
      - apply Nat.Div0.div_lt_upper_bound; lia. }
    destruct (a !! ((lo + hi) / 2)%nat) as [am|].
    + destruct (Qle_bool am x).
      * specialize (IH a x ((lo + hi) / 2 + 1)%nat hi ltac:(lia)). lia.
      * specialize (IH a x lo ((lo + hi) / 2)%nat ltac:(lia)). lia.
    + specialize (IH a x ((lo + hi) / 2 + 1)%nat hi ltac:(lia)). lia.
Qed.

(** X11.  A quantize scale over a palette that is not empty is built for
    every domain, answers every number with a colour of the palette, and
    answers no colour when there is no value. *)
Theorem scale_answers_in_palette (dom : Q * Q) (palette : list string) :
  palette <> [] ->
  exists s : scale,
    scaleQuantize dom palette = Some s /\
    apply s None = None /\
    forall v : Q, exists c : string,
      apply s (Some v) = Some c /\ c ∈ palette.
Proof.
  intros Hne. destruct palette as [|c0 rest]; [congruence|].
  eexists. split; [reflexivity|]. split; [reflexivity|].
  intros v. unfold apply, bucket. cbn [range domain n].
  pose proof (bisect_loop_bounds (length rest - 0)
                (rescale dom.1 dom.2 (length rest)) v 0 (length rest)
                ltac:(lia)) as [_ Hb].
  fold (bisect (rescale dom.1 dom.2 (length rest)) v 0 (length rest)) in Hb.
  destruct (lookup_lt_is_Some_2 (c0 :: rest)
              (bisect (rescale dom.1 dom.2 (length rest)) v 0 (length rest)))
    as [c Hc]; [cbn; lia|].
  exists c. split; [exact Hc|]. eapply list_elem_of_lookup_2, Hc.
Qed.
End QuantizeMore.

Section PlacementMore.
Import Chart.
Local Open Scope Q_scope.

Lemma ltb_false_le (a b : Q) : ltb a b = false -> b <= a.
Proof.
  unfold ltb. rewrite negb_false_iff. apply Qle_bool_iff.
Qed.

(** X12.  When the text layer sits at the top of the container, neither
    the tooltip's height nor the margin is negative, and the tooltip
    with the margin on both sides is no higher than the container,
    [place_top] keeps the tooltip inside the container vertically.  (A
    negative [tooltipMargin], which [configureTooltip] stores unchecked,
    is outside this statement.) *)
Theorem tooltip_top_inside (m : Measures.t) (margin : Q) (d : Node.t) :
  let height := Measures.tooltip_offsetHeight m in
  let containerHeight := Measures.container_offsetHeight m in
  Measures.html_offsetTop m == 0 ->
  0 <= height -> 0 <= margin ->
  height + 2 * margin <= containerHeight ->
  0 <= place_top m margin d /\
  place_top m margin d + height <= containerHeight.
Proof.
  destruct m as [cw ch ox oy tw th]. cbn. intros Ho Hh Hm Hfit.
  unfold place_top. cbn.
  destruct (ltb (oy + Node.y d - th) 0) eqn:E1.
  - split; lra.
  - apply ltb_false_le in E1.
    destruct (gtb (oy + Node.y d + th / 2) ch) eqn:E2.
    + split; lra.
    + apply ltb_false_le in E2. unfold Qdiv in *.
      change (/ 2) with (1 # 2) in *. split; lra.
Qed.

(** X13.  When the text layer sits at the left of the container, neither
    the margin nor the node's radius is negative, the node lies within
    the container's width, and the tooltip with the margin on both sides
    is no wider than the container, [place_left] keeps the tooltip
    inside the container horizontally.  (A negative [tooltipMargin],
    which [configureTooltip] stores unchecked, is outside this
    statement.) *)
Theorem tooltip_left_inside (m : Measures.t) (margin : Q) (d : Node.t) :
  let width := Measures.tooltip_offsetWidth m + 1 in
  let containerWidth := Measures.container_offsetWidth m in
  Measures.html_offsetLeft m == 0 ->
  0 <= margin -> 0 <= Node.r d ->
  0 <= Node.x d -> Node.x d <= containerWidth ->
  width + 2 * margin <= containerWidth ->
  0 <= (place_left m margin d).1 /\
  (place_left m margin d).1 + width <= containerWidth.
Proof.
  destruct m as [cw ch ox oy tw th]. cbn. intros Ho Hm Hr Hx0 Hx1 Hfit.
  unfold place_left. cbn.
  destruct (ltb (ox + Node.x d + Node.r d + (tw + 1) + margin) cw) eqn:E1.
  - apply ltb_lt in E1. cbn [fst]. split; lra.
  - destruct (gtb (ox + Node.x d - Node.r d - (tw + 1) - margin) 0) eqn:E2.
    + apply gtb_gt in E2. cbn [fst]. split; lra.
    + cbn [fst]. split; lra.
Qed.

Lemma ltb_comp (a a' b b' : Q) : a == a' -> b == b' -> ltb a b = ltb a' b'.
Proof. intros Ha Hb. unfold ltb. rewrite Ha, Hb. reflexivity. Qed.

(** X14.  With the text layer at the container's origin and a margin of
    5, the default, the placement of [adjustTooltipPosition] is the
    placement the legacy [_tooltipMouseOver] computes with its buffer
    when its [el] is the container. *)
Theorem placement_agrees_with_legacy (m : Measures.t) (margin : Q)
    (d : Node.t) :
  Measures.html_offsetLeft m == 0 -> Measures.html_offsetTop m == 0 ->
  margin == 5 ->
  place_top m margin d
  == Legacy.mouseover_top (Measures.container_offsetHeight m)
                      (Measures.tooltip_offsetHeight m) d /\
  (place_left m margin d).1
  == Legacy.mouseover_left (Measures.container_offsetWidth m)
                       (Measures.tooltip_offsetWidth m) d.
Proof.
  intros Hx Hy Hm. unfold place_top, place_left, Legacy.mouseover_top,
    Legacy.mouseover_left, gtb. cbv zeta. fold (ltb 0
      (Measures.html_offsetLeft m + Node.x d - Node.r d
       - (Measures.tooltip_offsetWidth m + 1) - margin)).
  fold (ltb (Measures.container_offsetHeight m)
            (Measures.html_offsetTop m + Node.y d
             + Measures.tooltip_offsetHeight m / 2)).
  fold (ltb 0 (Node.x d - Node.r d - (Measures.tooltip_offsetWidth m + 1) - 5)).
  fold (ltb (Measures.container_offsetHeight m)
            (Node.y d + Measures.tooltip_offsetHeight m / 2)).
  rewrite (ltb_comp (Measures.html_offsetTop m + Node.y d
                     - Measures.tooltip_offsetHeight m) (Node.y d
                     - Measures.tooltip_offsetHeight m) 0 0)
    by (try reflexivity; rewrite Hy; ring).
  rewrite (ltb_comp (Measures.container_offsetHeight m)
             (Measures.container_offsetHeight m)
             (Measures.html_offsetTop m + Node.y d
              + Measures.tooltip_offsetHeight m / 2)
             (Node.y d + Measures.tooltip_offsetHeight m / 2))
    by (try reflexivity; rewrite Hy; ring).
  rewrite (ltb_comp (Measures.html_offsetLeft m + Node.x d + Node.r d
                     + (Measures.tooltip_offsetWidth m + 1) + margin)
             (Node.x d + Node.r d + (Measures.tooltip_offsetWidth m + 1) + 5)
             (Measures.container_offsetWidth m)
             (Measures.container_offsetWidth m))
    by (try reflexivity; rewrite Hx, Hm; ring).
  rewrite (ltb_comp 0 0
             (Measures.html_offsetLeft m + Node.x d - Node.r d
              - (Measures.tooltip_offsetWidth m + 1) - margin)
             (Node.x d - Node.r d - (Measures.tooltip_offsetWidth m + 1) - 5))
    by (try reflexivity; rewrite Hx, Hm; ring).
  split.
  - destruct (ltb _ 0); [exact Hm|].
    destruct (ltb _ _); [rewrite Hm; reflexivity | reflexivity].
  - destruct (ltb _ (Measures.container_offsetWidth m)); cbn [fst];
      [rewrite Hm; reflexivity|].
    destruct (ltb 0 _); cbn [fst]; rewrite Hm; reflexivity.
Qed.

(** X15.  The label colour of [getLabelColor] is the legacy one whenever
    the node is not selected or a selected text colour is configured;
    only a selected node without one falls back to the scale. *)
Theorem label_color_agrees (c : t) (textColor : Quantize.scale) (d : Node.t) :
  Chart.textColor c = Some textColor ->
  selected (Node.data d) = false \/ truthy (selectedTextColor c) = true ->
  getLabelColor c d
  = Ok (Legacy.label_color (selectedTextColor c) textColor d).
Proof.
  intros Hc Hsel. unfold getLabelColor, Legacy.label_color. rewrite Hc.
  destruct Hsel as [-> | ->]; [reflexivity|].
  destruct (selected (Node.data d)); reflexivity.
Qed.

(** X16.  The class of a label is the legacy class, [bubble-label] and the
    size, followed by [selected] for a selected node. *)
Theorem label_class_extends_legacy (c : t) (d : Node.t) :
  getLabelClass c d
  = Legacy.label_class (smallDiameter c) (mediumDiameter c) d
    +:+ (if selected (Node.data d) then " selected" else "").
Proof.
  unfold getLabelClass, Legacy.label_class.
  destruct (ltb (2 * Node.r d) (smallDiameter c));
    [|destruct (ltb (2 * Node.r d) (mediumDiameter c))];
    destruct (selected (Node.data d)); reflexivity.
Qed.

End PlacementMore.

(** ** Tooltip, canvas, legend and host component *)

Section TooltipMore.
Import Chart.
Local Open Scope Q_scope.

Variable measure : Tooltip.t -> Measures.t.
Variable fade : option string -> string.
Variable tooltipFunc_false : Node.t -> option string -> bool.

Local Abbreviation adjustTooltipPosition := (adjustTooltipPosition measure).
Local Abbreviation _updateTooltip :=
  (_updateTooltip measure fade tooltipFunc_false).

Lemma changed_false (id prevId : dataId) (data prevData : option nat) :
  id <> prevId \/ data <> prevData ->
  bool_decide (id = prevId) && bool_decide (data = prevData) = false.
Proof.
  intros [H|H].
  - rewrite (bool_decide_eq_false_2 _ H). reflexivity.
  - rewrite (bool_decide_eq_false_2 _ H). apply andb_false_r.
Qed.

Lemma findNodeByDataId_set_tooltip (c : t) (tt : Tooltip.t) (id : string) :
  findNodeByDataId (set_tooltip c tt) id = findNodeByDataId c id.
Proof. reflexivity. Qed.

Lemma adjustTooltipPosition_found (c : t) (id : string) (d : Node.t) :
  Props.tooltippedDataId (props c) = Id id -> id <> "" ->
  findNodeByDataId c id = Ok (Some d) ->
  let m := measure (tooltip c) in
  let margin := Props.tooltipMargin (props c) in
  adjustTooltipPosition c
  = Ok (set_tooltip c
          (Tooltip.mk (Tooltip.display (tooltip c))
             (Some (place_left m margin d).2)
             (Some (VPx (Measures.tooltip_offsetWidth m + 1)))
             (Some (VPx (place_left m margin d).1))
             (Some (VPx (place_top m margin d)))
             (Tooltip.backgroundColor (tooltip c))
             (Tooltip.borderColor (tooltip c)))).
Proof.
  intros Hid Hne Hfound. apply String.eqb_neq in Hne.
  unfold Chart.adjustTooltipPosition. rewrite Hid. cbn [truthy_id].
  rewrite Hne, Hfound. reflexivity.
Qed.

(** X17.  In mode ['component'], when the tooltip's target or the data
    changed and the target is found, [_updateTooltip] shows the tooltip:
    display [block], the border in the node's colour, the width measured
    on the shown tooltip plus one, and top, left and side as [place_top]
    and [place_left] compute them from that measurement. *)
Theorem tooltip_shown_and_placed (c : t) (id : string) (d : Node.t)
    (fill : Quantize.scale) (prevId : dataId) (data prevData : option nat) :
  Props.tooltippedDataId (props c) = Id id -> id <> "" ->
  findNodeByDataId c id = Ok (Some d) ->
  color c = Some fill ->
  Props.mode (props c) = ModeComponent ->
  Id id <> prevId \/ data <> prevData ->
  let colour := Quantize.apply fill (colorValue (Node.data d)) in
  let shown :=
    Tooltip.mk "block" (Tooltip.classed (tooltip c)) None None None
               (Some (VStr (fade colour))) (Some (of_color colour)) in
  let m := measure shown in
  let margin := Props.tooltipMargin (props c) in
  exists c' : t,
    _updateTooltip c (Id id) prevId data prevData = Ok c' /\
    Tooltip.display (tooltip c') = "block" /\
    Tooltip.width (tooltip c')
    = Some (VPx (Measures.tooltip_offsetWidth m + 1)) /\
    Tooltip.top (tooltip c') = Some (VPx (place_top m margin d)) /\
    Tooltip.left (tooltip c') = Some (VPx (place_left m margin d).1) /\
    Tooltip.classed (tooltip c') = Some (place_left m margin d).2 /\
    Tooltip.borderColor (tooltip c') = Some (of_color colour).
Proof.
  intros Hid Hne Hfound Hcolor Hmode Hchanged colour shown m margin.
  pose proof Hne as Hne'. apply String.eqb_neq in Hne'.
  unfold Chart._updateTooltip. rewrite (changed_false _ _ _ _ Hchanged).
  cbn [truthy_id]. rewrite Hne', Hfound. cbn [mbind result_bind].
  unfold Chart._showTooltip, _hideTooltip.
  change (color (set_tooltip c _)) with (color c).
  change (props (set_tooltip c _)) with (props c).
  rewrite Hcolor, Hmode. cbn [call mbind result_bind].
  change (tooltip (set_tooltip c ?tt)) with tt. cbn [Tooltip.classed
    Tooltip.width Tooltip.left Tooltip.top].
  fold colour. fold shown.
  rewrite (adjustTooltipPosition_found (set_tooltip _ shown) id d);
    [|exact Hid|exact Hne|exact Hfound].
  eexists. split; [reflexivity|]. repeat split.
Qed.

(** X18.  In mode ['func'], when [tooltipFunc] returns [false] for the
    target, [_updateTooltip] leaves the tooltip hidden and sets no
    position. *)
Theorem tooltipFunc_false_keeps_hidden (c : t) (id : string) (d : Node.t)
    (fill : Quantize.scale) (prevId : dataId) (data prevData : option nat) :
  id <> "" ->
  findNodeByDataId c id = Ok (Some d) ->
  color c = Some fill ->
  Props.mode (props c) = ModeFunc ->
  tooltipFunc_false d (Quantize.apply fill (colorValue (Node.data d))) = true ->
  Id id <> prevId \/ data <> prevData ->
  _updateTooltip c (Id id) prevId data prevData = Ok (_hideTooltip c) /\
  Tooltip.display (tooltip (_hideTooltip c)) = "none".
Proof.
  intros Hne Hfound Hcolor Hmode Hveto Hchanged.
  apply String.eqb_neq in Hne. split; [|reflexivity].
  unfold Chart._updateTooltip. rewrite (changed_false _ _ _ _ Hchanged).
  cbn [truthy_id]. rewrite Hne, Hfound. cbn [mbind result_bind].
  unfold Chart._showTooltip, _hideTooltip.
  change (color (set_tooltip c _)) with (color c).
  change (props (set_tooltip c _)) with (props c).
  rewrite Hcolor, Hmode. cbn [call mbind result_bind].
  rewrite Hveto. reflexivity.
Qed.

(** X19.  In mode ['none'] the tooltip props are never normalised, so
    showing the tooltip of a node that is found throws a [TypeError] when
    it walks them. *)
Theorem tooltip_without_props_throws (c : t) (id : string) (d : Node.t)
    (fill : Quantize.scale) (prevId : dataId) (data prevData : option nat) :
  id <> "" ->
  findNodeByDataId c id = Ok (Some d) ->
  color c = Some fill ->
  Props.mode (props c) = ModeNone ->
  tooltipProps c = None ->
  Id id <> prevId \/ data <> prevData ->
  _updateTooltip c (Id id) prevId data prevData = Throw "TypeError".
Proof.
  intros Hne Hfound Hcolor Hmode Hprops Hchanged.
  apply String.eqb_neq in Hne.
  unfold Chart._updateTooltip. rewrite (changed_false _ _ _ _ Hchanged).
  cbn [truthy_id]. rewrite Hne, Hfound. cbn [mbind result_bind].
  unfold Chart._showTooltip, _hideTooltip.
  change (color (set_tooltip c _)) with (color c).
  change (props (set_tooltip c _)) with (props c).
  change (tooltipProps (set_tooltip c _)) with (tooltipProps c).
  rewrite Hcolor, Hmode, Hprops. reflexivity.
Qed.

(** X20.  The canvas of [adjustSize] is a square no larger than the
    container in either direction, and [top] centres it vertically. *)
Theorem canvas_is_centred_square (c : t) :
  let m := measure (tooltip c) in
  let side := diameter (adjustSize measure c) in
  let top := adjustSize_top m side in
  side <= Measures.container_offsetWidth m /\
  side <= Measures.container_offsetHeight m /\
  0 <= top /\
  top + side + top == Measures.container_offsetHeight m.
Proof.
  cbv zeta. unfold adjustSize, adjustSize_top. destruct c; cbn.
  set (w := Measures.container_offsetWidth _).
  set (h := Measures.container_offsetHeight _).
  pose proof (Q.le_min_l w h) as Hl. pose proof (Q.le_min_r w h) as Hr.
  split; [exact Hl|]. split; [exact Hr|].
  assert (Hpos : 0 <= (h - Qmin w h) / 2).
  { unfold Qdiv. change (/ 2) with (1 # 2). lra. }
  rewrite (Q.max_l _ _ Hpos). split; [exact Hpos|].
  field.
Qed.
End TooltipMore.

Section LegendFacts.
Import Legend.
Local Open Scope Q_scope.

Lemma inject_nat_pos (n : nat) : (0 < n)%nat -> 0 < inject_Z (Z.of_nat n).
Proof. intros H. change 0 with (inject_Z 0). rewrite <- Zlt_Qlt. lia. Qed.

(** X21.  A legend of at least one entry is drawn with one key per entry,
    keys no larger than 18, a height that leaves 20 of the container
    free, and a [top] that centres it vertically. *)
Theorem legend_fits (legendSpacing offsetHeight : Q)
    (colorLegend : list legendEntry) :
  colorLegend <> [] ->
  exists l : Legend.t,
    configureLegend true legendSpacing offsetHeight colorLegend = Drawn l /\
    length (keys l) = length colorLegend /\
    width l <= 18 /\
    height l <= offsetHeight - 20 /\
    top l + height l + top l == offsetHeight.
Proof.
  intros Hne. destruct colorLegend as [|e rest]; [congruence|].
  eexists. split; [reflexivity|]. cbn [keys width height top].
  split; [apply length_imap|].
  set (n := length (e :: rest)).
  assert (Hn : 0 < inject_Z (Z.of_nat n)) by (apply inject_nat_pos; cbn; lia).
  set (qn := inject_Z (Z.of_nat n)) in *.
  pose proof (Q.le_min_r
    (((offsetHeight - 20) - (qn - 1) * legendSpacing) / qn) 18) as H18.
  pose proof (Q.le_min_l
    (((offsetHeight - 20) - (qn - 1) * legendSpacing) / qn) 18) as Hq.
  fold qn in H18, Hq. unfold legendRectSize, legendHeight. fold qn.
  set (size := Qmin _ 18) in *.
  split; [exact H18|]. split.
  - apply (Qmult_le_l _ _ qn Hn) in Hq.
    rewrite Qmult_div_r in Hq by lra. nra.
  - field.
Qed.

(** X22.  With a spacing that is not negative and leaves room for the
    keys, the key at position [i] of the legend is moved down by [i]
    times the key size plus the spacing, and its square lies within the
    legend's height. *)
Theorem legend_keys_stacked (legendSpacing offsetHeight : Q)
    (colorLegend : list legendEntry) (l : Legend.t) (i : nat) (k : legendKey) :
  0 <= legendSpacing ->
  (inject_Z (Z.of_nat (length colorLegend)) - 1) * legendSpacing
    <= offsetHeight - 20 ->
  configureLegend true legendSpacing offsetHeight colorLegend = Drawn l ->
  keys l !! i = Some k ->
  exists y : Q,
    transform k = VTranslate 0 y /\
    y == inject_Z (Z.of_nat i) * (width l + legendSpacing) /\
    rect_height k = width l /\
    0 <= y /\ y + rect_height k <= height l.
Proof.
  intros Hs Hroom Hl Hk. unfold configureLegend in Hl. cbn [negb] in Hl.
  destruct colorLegend as [|e rest] eqn:Ecl; [discriminate|].
  rewrite <- Ecl in *. clear Ecl e rest.
  inversion Hl; subst l; clear Hl. cbn [keys width height] in *.
  rewrite list_lookup_imap in Hk.
  destruct (colorLegend !! i) as [c|] eqn:Hi; [|discriminate].
  cbn in Hk. inversion Hk; subst k; clear Hk. cbn [transform rect_height].
  eexists. split; [reflexivity|]. split; [reflexivity|]. split; [reflexivity|].
  apply lookup_lt_Some in Hi.
  set (n := length colorLegend) in *.
  assert (Hn : 0 < inject_Z (Z.of_nat n)) by (apply inject_nat_pos; lia).
  assert (Hin : inject_Z (Z.of_nat i) + 1 <= inject_Z (Z.of_nat n)).
  { change 1 with (inject_Z 1). rewrite <- inject_Z_plus, <- Zle_Qle. lia. }
  assert (Hi0 : 0 <= inject_Z (Z.of_nat i)).
  { change 0 with (inject_Z 0). rewrite <- Zle_Qle. lia. }
  set (qn := inject_Z (Z.of_nat n)) in *.
  set (qi := inject_Z (Z.of_nat i)) in *.
  assert (Hsize : 0 <= legendRectSize offsetHeight legendSpacing n).
  { unfold legendRectSize. fold qn. apply Q.min_glb; [|lra].
    apply Qle_shift_div_l; [exact Hn|]. lra. }
  unfold legendHeight. fold qn.
  set (size := legendRectSize offsetHeight legendSpacing n) in *.
  split; nra.
Qed.

(** X23.  The legend shows the palette in reverse: the colour of bucket
    [i] is the fill and the stroke of the key at position
    [length - 1 - i]. *)
Theorem legend_lists_palette_backwards (p : Props.t)
    (legendSpacing offsetHeight : Q) (i : nat) (c : string) :
  Chart.colorRange p !! i = Some c ->
  exists (l : Legend.t) (k : legendKey),
    configureLegend true legendSpacing offsetHeight (colorLegend p) = Drawn l /\
    keys l !! (length (Props.colorLegend p) - 1 - i)%nat = Some k /\
    fill k = c /\ stroke k = c.
Proof.
  intros Hc. unfold Chart.colorRange in Hc. rewrite list_lookup_fmap in Hc.
  destruct (Props.colorLegend p !! i) as [e|] eqn:He; [|discriminate].
  cbn in Hc. pose proof (lookup_lt_Some _ _ _ He) as Hlt.
  assert (Hrev : colorLegend p !! (length (Props.colorLegend p) - 1 - i)%nat
                 = Some (match e with
                         | LegendString s => LegendObject s None
                         | LegendObject _ _ => e
                         end)).
  { unfold colorLegend. rewrite list_lookup_fmap, reverse_lookup by lia.
    replace (length (Props.colorLegend p)
             - S (length (Props.colorLegend p) - 1 - i))%nat with i by lia.
    rewrite He. reflexivity. }
  unfold configureLegend. cbn [negb].
  destruct (colorLegend p) as [|e0 rest] eqn:Ecl.
  { rewrite lookup_nil in Hrev. discriminate. }
  rewrite <- Ecl in *. eexists _, _. split; [reflexivity|]. cbn [keys].
  rewrite list_lookup_imap, Hrev. cbn. split; [reflexivity|].
  destruct e; cbn in *; inversion Hc; subst; split; reflexivity.
Qed.
End LegendFacts.

Section ComponentFacts.
Import Component.

(** X24.  With tooltips enabled and [tooltipShouldShow] true of the node,
    and the data unchanged, hovering a node makes the next chart state
    carry the node's identity as the tooltip's target, and leaving it
    makes the target [null]. *)
Theorem hover_sets_the_target (p : props) (s : state) (pr : Props.t)
    (tooltipShouldShow : Node.t -> bool) (d : Node.t) :
  Props.tooltip pr = true -> tooltipShouldShow d = true ->
  prevData s = data p ->
  (exists mode,
     chart (getDerivedStateFromProps p
              (onTooltip (_tooltipMouseOver pr tooltipShouldShow d) s))
     = Some (mkChartState (data p) mode (id_of d))) /\
  (exists mode,
     chart (getDerivedStateFromProps p
              (onTooltip (_tooltipMouseOut pr tooltipShouldShow d) s))
     = Some (mkChartState (data p) mode IdNull)).
Proof.
  intros Ht Hshow Hdata.
  unfold _tooltipMouseOver, _tooltipMouseOut. rewrite Ht, Hshow.
  cbn [negb onTooltip]. unfold getDerivedStateFromProps, _handleTooltip.
  cbn [prevData tooltipTargetChangedSinceLastDataUpdate tooltippedDataId].
  rewrite (bool_decide_eq_true_2 _ Hdata). split; eexists; reflexivity.
Qed.

(** X25.  When the data changed, the next chart state carries the initial
    tooltip target again, whatever was hovered, and the state reached is
    stable under the same props. *)
Theorem new_data_resets_the_target (p : props) (s : state) :
  prevData s <> data p ->
  let s' := getDerivedStateFromProps p s in
  (exists mode,
     chart s' = Some (mkChartState (data p) mode (initialTooltippedDataId p))) /\
  tooltipTargetChangedSinceLastDataUpdate s' = false /\
  tooltippedDataId s' = tooltippedDataId s /\
  getDerivedStateFromProps p s' = s'.
Proof.
  intros Hdata. cbv zeta. unfold getDerivedStateFromProps.
  cbn [prevData tooltipTargetChangedSinceLastDataUpdate tooltippedDataId chart].
  rewrite (bool_decide_eq_false_2 _ Hdata).
  rewrite (bool_decide_eq_true_2 (data p = data p) eq_refl).
  repeat split. eexists. reflexivity.
Qed.
End ComponentFacts.

(** ** More concrete runs *)

Section MoreScenarios.
Import Scenario Examples.
Local Open Scope Q_scope.

Local Abbreviation prev_ab := [leaf "a" 1 1 1; leaf "b" 2 2 2].
Local Abbreviation next_bc := [leaf "b" 3 3 3; leaf "c" 4 4 4].

Lemma join_places_every_node_witness :
  next_bc !! 1%nat = Some (leaf "c" 4 4 4) /\
  Join.update (Join.bindKey prev_ab next_bc) !! 1%nat = Some None /\
  Join.enter (Join.bindKey prev_ab next_bc) !! 1%nat
  = Some (Some (leaf "c" 4 4 4)).
Proof.
  split; [reflexivity|].
  destruct (join_places_every_node prev_ab next_bc 1 (leaf "c" 4 4 4) eq_refl)
    as [(j & Hu & _)|H]; [|exact H].
  vm_compute in Hu. discriminate.
Defined.

Lemma join_binds_by_key_witness :
  Join.update (Join.bindKey prev_ab next_bc) !! 0%nat
  = Some (Some (1%nat, leaf "b" 3 3 3)) /\
  exists node, prev_ab !! 1%nat = Some node /\ key node = "gb" /\
               Join.exit (Join.bindKey prev_ab next_bc) !! 1%nat = Some None.
Proof.
  assert (H : Join.update (Join.bindKey prev_ab next_bc) !! 0%nat
              = Some (Some (1%nat, leaf "b" 3 3 3)))
    by (vm_compute; reflexivity).
  split; [exact H|].
  destruct (join_binds_by_key _ _ _ _ _ H) as (_ & node & Hn & Hk & Hx).
  exists node. split; [exact Hn|]. split; [exact Hk | exact Hx].
Defined.

Lemma join_keeps_or_exits_witness :
  prev_ab !! 0%nat = Some (leaf "a" 1 1 1) /\
  Join.exit (Join.bindKey prev_ab next_bc) !! 0%nat
  = Some (Some (0%nat, leaf "a" 1 1 1)) /\
  forall i d, Join.update (Join.bindKey prev_ab next_bc) !! i
              <> Some (Some (0%nat, d)).
Proof.
  split; [reflexivity|].
  destruct (join_keeps_or_exits prev_ab next_bc 0 (leaf "a" 1 1 1) eq_refl)
    as [H|[Hx _]]; [exact H|].
  vm_compute in Hx. discriminate.
Defined.

Lemma exit_render_returns :
  update_near_axis (Chart.construct props0) props0 no_props
                   next_nodes circles_with_a labels_with_a
  = Ok (exit_render.1, Some exit_render.2).
Proof. vm_compute. reflexivity. Qed.

(** On a canvas of side 500 the circle and the label of [a], last placed
    at [(400, 250)], fly to the middle of the right edge, [(500, 250)];
    the circle of [a] is the first of the circles on screen, its label
    the second of the labels. *)
Lemma exit_trajectory_witness :
  let theta := atan2_near_axis (250 - 500 / 2) (400 - 500 / 2) in
  let X := 500 * (1 + cos_near_0 theta) / 2 in
  let Y := 500 * (1 + sin_near_0 theta) / 2 in
  update_near_axis (Chart.construct props0) props0 no_props
                   next_nodes circles_with_a labels_with_a
  = Ok (exit_render.1, Some exit_render.2) /\
  circles_with_a !! 0%nat = Some (leaf "a" 400 250 20) /\
  labels_with_a !! 1%nat = Some (leaf "a" 400 250 20) /\
  (key (leaf "a" 400 250 20) ∉ key <$> next_nodes) /\
  X == 500 /\ Y == 250 /\
  (exists s : Scheduled.t,
      s ∈ Chart.circle_ops exit_render.2 /\
      Scheduled.phase_of s = Exiting /\ Scheduled.index s = 0%nat /\
      Scheduled.datum_of s = leaf "a" 400 250 20 /\
      Transition.tweens (Scheduled.transition s)
      = [(Attr "transform", VTranslate X Y); (Attr "r", VNum 0)] /\
      Transition.remove (Scheduled.transition s) = true) /\
  (exists s : Scheduled.t,
      s ∈ Chart.label_ops exit_render.2 /\
      Scheduled.phase_of s = Exiting /\ Scheduled.index s = 1%nat /\
      Scheduled.datum_of s = leaf "a" 400 250 20 /\
      Transition.tweens (Scheduled.transition s)
      = [(Style "top", VPx Y);
         (Style "left", VPx X);
         (Style "opacity", VNum 0);
         (Style "width", VNum 0);
         (Style "height", VNum 0)] /\
      Transition.remove (Scheduled.transition s) = true).
Proof.
  cbv zeta.
  assert (Hnew : key (leaf "a" 400 250 20) ∉ key <$> next_nodes).
  { intros Hin. cbn in Hin.
    repeat (apply elem_of_cons in Hin as [Hin|Hin]; [discriminate|]).
    inversion Hin. }
  split; [exact exit_render_returns|]. split; [reflexivity|].
  split; [reflexivity|]. split; [exact Hnew|].
  split; [vm_compute; reflexivity|]. split; [vm_compute; reflexivity|].
  destruct (exit_trajectory _ _ _ _ _ _ _ _ _ _ _ _ _ _ exit_render_returns)
    as (_ & _ & _ & _ & _ & Hcircle & Hlabel).
  split.
  - destruct (Hcircle 0%nat (leaf "a" 400 250 20) eq_refl Hnew)
      as (s & Hs & Hph & Hi & Hd & Htw & Hrm).
    exists s. split; [exact Hs|]. split; [exact Hph|]. split; [exact Hi|].
    split; [exact Hd|]. split; [exact Htw | exact Hrm].
  - destruct (Hlabel 1%nat (leaf "a" 400 250 20) eq_refl Hnew)
      as (s & Hs & Hph & Hi & Hd & Htw & Hrm).
    exists s. split; [exact Hs|]. split; [exact Hph|]. split; [exact Hi|].
    split; [exact Hd|]. split; [exact Htw | exact Hrm].
Defined.

Lemma every_node_labelled_witness :
  update0 (Chart.construct props0) props0 no_props
          next_nodes circles_before labels_before
  = Ok (next_render.1, Some next_render.2) /\
  next_nodes !! 2%nat = Some (leaf "c" 140 140 20) /\
  exists s : Scheduled.t,
    s ∈ Chart.label_ops next_render.2 /\
    Scheduled.index s = 2%nat /\
    Scheduled.datum_of s = leaf "c" 140 140 20.
Proof.
  split; [exact next_render_returns|]. split; [reflexivity|].
  destruct (every_node_labelled _ _ _ _ _ _ _ _ _ _ _ _ _ _ 2%nat
              (leaf "c" 140 140 20) next_render_returns eq_refl)
    as (s & Hs & Hi & Hd & _).
  exists s. split; [exact Hs|]. split; [exact Hi | exact Hd].
Defined.

Lemma circles_enter_for_leaves_witness :
  update0 (Chart.construct props0) props0 no_props
          next_nodes circles_before labels_before
  = Ok (next_render.1, Some next_render.2) /\
  exists s : Scheduled.t,
    s ∈ Chart.circle_ops next_render.2 /\
    Scheduled.phase_of s = Entering /\
    Node.children (Scheduled.datum_of s) = false.
Proof.
  split; [exact next_render_returns|].
  eexists. split; [apply list_elem_of_further, list_elem_of_here|].
  split; [reflexivity|].
  match goal with
  | |- context [Scheduled.datum_of ?s] =>
      exact (proj1 (circles_enter_for_leaves _ _ _ _ _ _ _ _ _ _ _ _ _ _ s
                      next_render_returns
                      ltac:(apply list_elem_of_further, list_elem_of_here)
                      eq_refl))
  end.
Defined.

Lemma rendered_node_is_found_witness :
  update0 (Chart.construct props0) props0 no_props
          next_nodes circles_before labels_before
  = Ok (next_render.1, Some next_render.2) /\
  leaf "c" 140 140 20 ∈ next_nodes /\
  exists d' : Node.t,
    Chart.findNodeByDataId next_render.1 "c" = Ok (Some d') /\
    _id (Node.data d') = Some "c".
Proof.
  split; [exact next_render_returns|].
  assert (Hin : leaf "c" 140 140 20 ∈ next_nodes)
    by (do 2 apply list_elem_of_further; apply list_elem_of_here).
  split; [exact Hin|].
  destruct (rendered_node_is_found _ _ _ _ _ _ _ _ _ _ _ _ _ _ _ "c"
              next_render_returns Hin eq_refl) as (d' & Hf & _ & Hid).
  exists d'. split; [exact Hf | exact Hid].
Defined.

Lemma again_render_returns :
  update0 (Chart.construct props0) props0 no_props next_nodes
          (map halved (leaves next_nodes)) (map halved next_nodes)
  = Ok (again_render.1, Some again_render.2).
Proof. vm_compute. reflexivity. Qed.

Lemma rerender_only_updates_witness :
  NoDup (key <$> next_nodes) /\
  key <$> map halved (leaves next_nodes)
  = key <$> filter (fun d => Node.children d = false) next_nodes /\
  key <$> map halved next_nodes = key <$> next_nodes /\
  update0 (Chart.construct props0) props0 no_props next_nodes
          (map halved (leaves next_nodes)) (map halved next_nodes)
  = Ok (again_render.1, Some again_render.2) /\
  length (Chart.circle_ops again_render.2) = 2%nat /\
  length (Chart.label_ops again_render.2) = 3%nat /\
  forall s, s ∈ Chart.circle_ops again_render.2
                ++ Chart.label_ops again_render.2 ->
            Scheduled.phase_of s = Updating.
Proof.
  assert (Hnd : NoDup (key <$> next_nodes))
    by (refine (bool_decide_unpack _ _); vm_compute; exact I).
  split; [exact Hnd|]. split; [reflexivity|]. split; [reflexivity|].
  split; [exact again_render_returns|].
  split; [reflexivity|]. split; [reflexivity|].
  intros s Hs.
  exact (rerender_only_updates _ _ _ _ _ _ _ _ _ _ next_nodes
           (map halved (leaves next_nodes)) (map halved next_nodes) _ s Hnd
           eq_refl eq_refl again_render_returns Hs).
Defined.

Lemma fill_and_text_share_bucket_witness :
  update0 (Chart.construct props0) props0 no_props
          next_nodes circles_before labels_before
  = Ok (next_render.1, Some next_render.2) /\
  exists fill text : Quantize.scale,
    Chart.color next_render.1 = Some fill /\
    Chart.textColor next_render.1 = Some text /\
    Quantize.bucket fill (3 # 4) = Quantize.bucket text (3 # 4).
Proof.
  split; [exact next_render_returns|].
  destruct (fill_and_text_share_bucket _ _ _ _ _ _ _ _ _ _ _ _ _ _
              next_render_returns)
    as (fill & text & Hf & Ht & _ & _ & _ & _ & Hb).
  exists fill, text. split; [exact Hf|]. split; [exact Ht | apply Hb].
Defined.

Lemma late_font_render_returns :
  update0 (Chart.construct props0) props_font no_props first_nodes [] []
  = Ok (late_font_render.1, Some late_font_render.2).
Proof. vm_compute. reflexivity. Qed.

Lemma update_keeps_configuration_witness :
  update0 (Chart.construct props0) props_font no_props first_nodes [] []
  = Ok (late_font_render.1, Some late_font_render.2) /\
  Props.fontSizeFactor props_font <> None /\
  Chart.fontSizeFactor late_font_render.1 = None /\
  Chart.duration late_font_render.1 = 500.
Proof.
  split; [exact late_font_render_returns|]. split; [discriminate|].
  destruct (update_keeps_configuration _ _ _ _ _ _ _ _ _ _ _ _ _ _
              late_font_render_returns)
    as (_ & _ & _ & _ & Hfont & Hdur & _).
  split; [exact Hfont | exact Hdur].
Defined.

Lemma update_without_data_witness :
  Props.data no_props = None /\
  exists c' : Chart.t,
    update0 (rendered props0 first_nodes) no_props props0 [] [] []
    = Ok (c', None) /\
    Chart.circles c' = Chart.circles (rendered props0 first_nodes).
Proof.
  split; [reflexivity|].
  destruct (update_without_data zero2 zero1 zero1 (box 500 500 100 40) fade0
              func0 (rendered props0 first_nodes) no_props props0 [] [] []
              eq_refl) as (c' & Hu & _ & _ & _ & Hc & _).
  exists c'. split; [exact Hu | exact Hc].
Defined.

Lemma scale_answers_in_palette_witness :
  ["#fee"; "#e33"] <> [] /\
  exists s : Quantize.scale,
    Quantize.scaleQuantize (1, 0) ["#fee"; "#e33"] = Some s /\
    exists c : string,
      Quantize.apply s (Some 7) = Some c /\ c ∈ ["#fee"; "#e33"].
Proof.
  split; [discriminate|].
  destruct (scale_answers_in_palette (1, 0) ["#fee"; "#e33"])
    as (s & Hs & _ & Hv); [discriminate|].
  exists s. split; [exact Hs | exact (Hv 7)].
Defined.

Lemma tooltip_top_inside_witness :
  let m := box 500 500 100 40 Chart.tooltip0 in
  let d := leaf "n" 250 30 20 in
  Measures.html_offsetTop m == 0 /\ 0 <= 40 /\ 0 <= 5 /\
  40 + 2 * 5 <= 500 /\
  0 <= Chart.place_top m 5 d /\ Chart.place_top m 5 d + 40 <= 500.
Proof.
  cbv zeta. split; [reflexivity|]. split; [discriminate|].
  split; [discriminate|]. split; [discriminate|].
  apply (tooltip_top_inside (box 500 500 100 40 Chart.tooltip0) 5
           (leaf "n" 250 30 20));
    [reflexivity | discriminate | discriminate | discriminate].
Defined.

Lemma tooltip_left_inside_witness :
  let m := box 200 200 99 40 Chart.tooltip0 in
  let d := leaf "n" 125 100 20 in
  Measures.html_offsetLeft m == 0 /\ 0 <= 5 /\ 0 <= Node.r d /\
  0 <= Node.x d /\ Node.x d <= 200 /\ (99 + 1) + 2 * 5 <= 200 /\
  0 <= (Chart.place_left m 5 d).1 /\
  (Chart.place_left m 5 d).1 + (99 + 1) <= 200.
Proof.
  cbv zeta. split; [reflexivity|]. do 5 (split; [discriminate|]).
  apply (tooltip_left_inside (box 200 200 99 40 Chart.tooltip0) 5
           (leaf "n" 125 100 20));
    try reflexivity; discriminate.
Defined.

Lemma placement_agrees_with_legacy_witness :
  let m := box 500 500 100 40 Chart.tooltip0 in
  let d := leaf "n" 480 250 20 in
  Measures.html_offsetLeft m == 0 /\ Measures.html_offsetTop m == 0 /\
  5 == 5 /\
  Chart.place_top m 5 d == Legacy.mouseover_top 500 40 d /\
  (Chart.place_left m 5 d).1 == Legacy.mouseover_left 500 100 d.
Proof.
  cbv zeta. do 3 (split; [reflexivity|]).
  apply (placement_agrees_with_legacy (box 500 500 100 40 Chart.tooltip0) 5
           (leaf "n" 480 250 20)); reflexivity.
Defined.

Lemma label_color_agrees_witness :
  let d := leaf "a" 50 50 20 in
  let c := rendered props0 [root; d] in
  Chart.textColor c = Some scale0 /\
  (selected (Node.data d) = false \/
   truthy (Chart.selectedTextColor c) = true) /\
  Chart.getLabelColor c d
  = Ok (Legacy.label_color (Chart.selectedTextColor c) scale0 d).
Proof.
  cbv zeta. split; [reflexivity|]. split; [left; reflexivity|].
  apply label_color_agrees; [reflexivity | left; reflexivity].
Defined.

Lemma tooltip_shown_and_placed_witness :
  let d := leaf "n" 480 250 20 in
  let c := rendered (props_tip "n") [root; d] in
  Props.tooltippedDataId (Chart.props c) = Id "n" /\ "n" <> "" /\
  Chart.findNodeByDataId c "n" = Ok (Some d) /\
  Chart.color c = Some scale0 /\
  Props.mode (Chart.props c) = ModeComponent /\
  (Id "n" <> IdUndefined \/ Some 1%nat <> None) /\
  exists c' : Chart.t,
    Chart._updateTooltip (box 500 500 100 40) fade0 func0 c (Id "n")
                         IdUndefined (Some 1%nat) None = Ok c' /\
    Tooltip.display (Chart.tooltip c') = "block" /\
    Tooltip.classed (Chart.tooltip c') = Some SideLeft.
Proof.
  cbv zeta.
  assert (Hfound : Chart.findNodeByDataId
                     (rendered (props_tip "n") [root; leaf "n" 480 250 20]) "n"
                   = Ok (Some (leaf "n" 480 250 20)))
    by (vm_compute; reflexivity).
  split; [reflexivity|]. split; [discriminate|]. split; [exact Hfound|].
  split; [reflexivity|]. split; [reflexivity|].
  split; [left; discriminate|].
  destruct (tooltip_shown_and_placed (box 500 500 100 40) fade0 func0
              (rendered (props_tip "n") [root; leaf "n" 480 250 20])
              "n" (leaf "n" 480 250 20) scale0 IdUndefined (Some 1%nat) None
              eq_refl ltac:(discriminate) Hfound eq_refl eq_refl
              ltac:(left; discriminate))
    as (c' & Hu & Hd & _ & _ & _ & Hside & _).
  exists c'. split; [exact Hu|]. split; [exact Hd|].
  rewrite Hside. vm_compute. reflexivity.
Defined.

Lemma tooltipFunc_false_keeps_hidden_witness :
  let d := leaf "n" 480 250 20 in
  let c := rendered (props_func "n") [root; d] in
  "n" <> "" /\ Chart.findNodeByDataId c "n" = Ok (Some d) /\
  Chart.color c = Some scale0 /\
  Props.mode (Chart.props c) = ModeFunc /\
  veto d (Quantize.apply scale0 (colorValue (Node.data d))) = true /\
  (Id "n" <> IdUndefined \/ Some 1%nat <> None) /\
  Chart._updateTooltip (box 500 500 100 40) fade0 veto c (Id "n")
                       IdUndefined (Some 1%nat) None
  = Ok (Chart._hideTooltip c).
Proof.
  cbv zeta.
  assert (Hfound : Chart.findNodeByDataId
                     (rendered (props_func "n") [root; leaf "n" 480 250 20]) "n"
                   = Ok (Some (leaf "n" 480 250 20)))
    by (vm_compute; reflexivity).
  split; [discriminate|]. split; [exact Hfound|].
  split; [reflexivity|]. split; [reflexivity|]. split; [reflexivity|].
  split; [left; discriminate|].
  exact (proj1 (tooltipFunc_false_keeps_hidden (box 500 500 100 40) fade0 veto
           (rendered (props_func "n") [root; leaf "n" 480 250 20])
           "n" (leaf "n" 480 250 20) scale0 IdUndefined (Some 1%nat) None
           ltac:(discriminate) Hfound eq_refl eq_refl eq_refl
           ltac:(left; discriminate))).
Defined.

Lemma tooltip_without_props_throws_witness :
  let d := leaf "n" 480 250 20 in
  let c := rendered (props_plain "n") [root; d] in
  "n" <> "" /\ Chart.findNodeByDataId c "n" = Ok (Some d) /\
  Chart.color c = Some scale0 /\
  Props.mode (Chart.props c) = ModeNone /\
  Chart.tooltipProps c = None /\
  (Id "n" <> IdUndefined \/ Some 1%nat <> None) /\
  Chart._updateTooltip (box 500 500 100 40) fade0 func0 c (Id "n")
                       IdUndefined (Some 1%nat) None
  = Throw "TypeError".
Proof.
  cbv zeta.
  assert (Hfound : Chart.findNodeByDataId
                     (rendered (props_plain "n") [root; leaf "n" 480 250 20]) "n"
                   = Ok (Some (leaf "n" 480 250 20)))
    by (vm_compute; reflexivity).
  split; [discriminate|]. split; [exact Hfound|].
  split; [reflexivity|]. split; [reflexivity|]. split; [reflexivity|].
  split; [left; discriminate|].
  exact (tooltip_without_props_throws (box 500 500 100 40) fade0 func0
           (rendered (props_plain "n") [root; leaf "n" 480 250 20])
           "n" (leaf "n" 480 250 20) scale0 IdUndefined (Some 1%nat) None
           ltac:(discriminate) Hfound eq_refl eq_refl eq_refl
           ltac:(left; discriminate)).
Defined.

Lemma legend_fits_witness :
  three_colours <> [] /\
  exists l : Legend.t,
    Legend.configureLegend true 3 200 three_colours = Legend.Drawn l /\
    length (Legend.keys l) = 3%nat /\
    Legend.width l <= 18 /\ Legend.height l <= 200 - 20.
Proof.
  split; [discriminate|].
  destruct (legend_fits 3 200 three_colours) as (l & Hl & Hk & Hw & Hh & _);
    [discriminate|].
  exists l. split; [exact Hl|]. split; [exact Hk|]. split; [exact Hw | exact Hh].
Defined.

Lemma legend_keys_stacked_witness :
  0 <= 3 /\
  (inject_Z (Z.of_nat (length three_colours)) - 1) * 3 <= 200 - 20 /\
  exists (l : Legend.t) (k : Legend.legendKey) (y : Q),
    Legend.configureLegend true 3 200 three_colours = Legend.Drawn l /\
    Legend.keys l !! 2%nat = Some k /\
    Legend.transform k = VTranslate 0 y /\
    0 <= y /\ y + Legend.rect_height k <= Legend.height l.
Proof.
  split; [discriminate|]. split; [vm_compute; discriminate|].
  eexists _, _. 
  assert (Hl : Legend.configureLegend true 3 200 three_colours
               = Legend.Drawn
                   (match Legend.configureLegend true 3 200 three_colours with
                    | Legend.Drawn l => l
                    | _ => Legend.mk 0 0 0 0 []
                    end)) by reflexivity.
  destruct (legend_keys_stacked 3 200 three_colours _ 2%nat _
              ltac:(discriminate) ltac:(vm_compute; discriminate) Hl eq_refl)
    as (y & Ht & _ & _ & Hy0 & Hy1).
  exists y. split; [exact Hl|]. split; [reflexivity|]. split; [exact Ht|].
  split; [exact Hy0 | exact Hy1].
Defined.

Lemma legend_lists_palette_backwards_witness :
  Chart.colorRange props_legend !! 0%nat = Some "#fee" /\
  exists (l : Legend.t) (k : Legend.legendKey),
    Legend.configureLegend true 3 200 (Legend.colorLegend props_legend)
    = Legend.Drawn l /\
    Legend.keys l !! 2%nat = Some k /\ Legend.fill k = "#fee".
Proof.
  split; [reflexivity|].
  destruct (legend_lists_palette_backwards props_legend 3 200 0 "#fee" eq_refl)
    as (l & k & Hl & Hk & Hf & _).
  exists l, k. split; [exact Hl|]. split; [exact Hk | exact Hf].
Defined.

Lemma hover_sets_the_target_witness :
  let s := Component.getDerivedStateFromProps host_props Component.initial in
  Props.tooltip (props_tip "n") = true /\
  Component.prevData s = Component.data host_props /\
  exists mode,
    Component.chart
      (Component.getDerivedStateFromProps host_props
         (Component.onTooltip
            (_tooltipMouseOver (props_tip "n") (fun _ => true)
                               (leaf "n" 480 250 20)) s))
    = Some (Component.mkChartState (Some 1%nat) mode (Id "n")).
Proof.
  cbv zeta. split; [reflexivity|]. split; [reflexivity|].
  destruct (hover_sets_the_target host_props
              (Component.getDerivedStateFromProps host_props Component.initial)
              (props_tip "n") (fun _ => true) (leaf "n" 480 250 20)
              eq_refl eq_refl eq_refl) as [Hover _].
  exact Hover.
Defined.

Lemma new_data_resets_the_target_witness :
  let s := Component._handleTooltip true (leaf "n" 480 250 20)
             (Component.getDerivedStateFromProps host_props Component.initial) in
  let p := Component.mkProps (Some 2%nat) (Id "first") false true in
  Component.prevData s <> Component.data p /\
  exists mode,
    Component.chart (Component.getDerivedStateFromProps p s)
    = Some (Component.mkChartState (Some 2%nat) mode (Id "first")).
Proof.
  cbv zeta. split; [discriminate|].
  destruct (new_data_resets_the_target
              (Component.mkProps (Some 2%nat) (Id "first") false true)
              (Component._handleTooltip true (leaf "n" 480 250 20)
                 (Component.getDerivedStateFromProps host_props
                    Component.initial))
              ltac:(discriminate)) as [Hreset _].
  exact Hreset.
Defined.

End MoreScenarios.
